(** * Commute-Check: the traffic-cache refresh coordinator and its collaborators

    A shallow embedding of [traffic.js], [db.js] and [app.js] (the Express
    server), and of the computing parts of the page script, followed by the
    properties of the specification that concern them and by further
    properties of the code.

    Conventions of the embedding:
    - a JavaScript exception is a [Throw] carrying the [message] of the
      thrown [Error]; a normal completion is a [Return];
    - a [Date] is the record of the accessors the program calls on it;
    - what the outside world answers (the Directions API, the clock,
      [Math.random], a failing SQLite write) is an explicit argument;
    - the single-threaded event loop is a transition function on an explicit
      [State]: one transition is one macrotask together with the microtasks
      it triggers. *)

From Stdlib Require Import ZArith QArith Qround Qminmax String DecimalString List Sorted Lia.
From stdpp Require Import base list strings.
Import ListNotations.

Close Scope Q_scope.
Open Scope string_scope.
Open Scope list_scope.
Open Scope Z_scope.

(** ** Completions: [try] / [throw] *)

Inductive Completion (A : Type) : Type :=
| Return (a : A)
| Throw (message : string).
Arguments Return {A} a.
Arguments Throw {A} message.

(** Sequencing: a [Throw] skips the rest.  Written [x ← c; k]. *)
#[global] Instance Completion_bind : MBind Completion :=
  fun A B (k : A -> Completion B) (c : Completion A) =>
    match c with
    | Return a => k a
    | Throw m => Throw m
    end.

(** ** JavaScript values the program relies on *)

(** A [Date], seen through the accessors used by the program: [getTime] is
    the epoch time in milliseconds, the others are the local wall-clock
    fields ([getMonth] is 0-based). *)
Record Date : Type := mkDate {
  getTime : Z;
  getFullYear : Z;
  getMonth : Z;
  getDate : Z;
  getHours : Z;
  getMinutes : Z;
  getSeconds : Z
}.

(** [Math.round (n / d)] for integers [n] and [d > 0]: the nearest integer,
    a tie going up. *)
Definition Math_round_div (n d : Z) : Z := (2 * n + d) / (2 * d).

(** * traffic.js *)

Module Traffic.

Record Route : Type := mkRoute {
  origin : string;
  destination : string;
  waypoint : string;
  name : string
}.

(** [ROUTES]: an object literal, kept as an association list because
    [Object.keys] enumerates it in insertion order. *)
Definition ROUTES : list (string * Route) :=
  [ ("gwb-into", mkRoute "40.8509,-73.9630" "40.8500,-73.9400" "40.8517,-73.9527" "George Washington Bridge");
    ("gwb-out", mkRoute "40.8500,-73.9400" "40.8509,-73.9630" "40.8517,-73.9527" "George Washington Bridge");
    ("lincoln-into", mkRoute "40.7600,-74.0200" "40.7580,-73.9900" "40.7590,-74.0020" "Lincoln Tunnel");
    ("lincoln-out", mkRoute "40.7580,-73.9900" "40.7600,-74.0200" "40.7590,-74.0020" "Lincoln Tunnel");
    ("holland-into", mkRoute "40.7280,-74.0500" "40.7260,-74.0070" "40.7267,-74.0110" "Holland Tunnel");
    ("holland-out", mkRoute "40.7260,-74.0070" "40.7280,-74.0500" "40.7267,-74.0110" "Holland Tunnel") ].

(** [ROUTES[crossingId]], for the names that the object has of its own.
    The program only looks up keys of [ROUTES], and the properties below
    concern [fetchTravelTime] at those keys; the names that every object
    inherits ([constructor], [toString], ...) are not modelled. *)
Fixpoint get_route (routes : list (string * Route)) (crossingId : string) : option Route :=
  match routes with
  | [] => None
  | (k, r) :: rest => if String.eqb k crossingId then Some r else get_route rest crossingId
  end.

(** [Object.keys(ROUTES)] *)
Definition keys (routes : list (string * Route)) : list string := map fst routes.

(** The part of a Directions API answer that the program reads.  The
    numeric fields are integers, as the API documents them. *)
Record Leg : Type := mkLeg {
  duration_in_traffic : option Z;
  duration : Z;
  distance : Z
}.

Record RouteData : Type := mkRouteData { legs : option (list Leg) }.

Record Directions : Type := mkDirections {
  status : string;
  routes : option (list RouteData)
}.

(** The outside world of one batch of fetches: what
    [fetch(url)] followed by [response.json()] produces for a route (a
    network or parse failure is a [Throw]), and what [new Date()] gives
    while a crossing is being handled. *)
Record World : Type := mkWorld {
  fetch_json : Route -> Completion Directions;
  new_Date : string -> Date
}.

(** An element of the result list.  [waitTime = None] is [null];
    [error = None] is an absent [error] property.  The two display texts
    [durationText] and [distance] are not read by the server and are left
    out. *)
Record TravelTime : Type := mkTravelTime {
  crossingId : string;
  waitTime : option Z;
  error : option string;
  timestamp : Date
}.

(** The loop over [route_data.legs] that sums the durations. *)
Fixpoint totalDurationSeconds (ls : list Leg) (acc : Z) : Z :=
  match ls with
  | [] => acc
  | leg :: rest =>
      totalDurationSeconds rest
        (acc + match duration_in_traffic leg with
               | Some v => v
               | None => duration leg
               end)
  end.

Definition fetchTravelTime (w : World) (crossingId : string) : Completion TravelTime :=
  match get_route ROUTES crossingId with
  | None => Throw ("Unknown crossing: " +:+ crossingId)
  | Some route =>
      data ← fetch_json w route;
      if negb (String.eqb (status data) "OK") then
        Throw ("API error: " +:+ status data)
      else
        match routes data with
        | None | Some [] => Throw "No routes found"
        | Some (route_data :: _) =>
            match legs route_data with
            | None | Some [] => Throw "No route legs found"
            | Some ls =>
                let durationMinutes := Math_round_div (totalDurationSeconds ls 0) 60 in
                Return (mkTravelTime crossingId (Some durationMinutes) None (new_Date w crossingId))
            end
        end
  end.

(** The [for ... of] loop of [fetchAllTravelTimes], with its
    [try] / [catch] around each call. *)
Fixpoint fetchAll_loop (w : World) (crossingIds : list string)
         (results : list TravelTime) : Completion (list TravelTime) :=
  match crossingIds with
  | [] => Return results
  | crossingId :: rest =>
      match fetchTravelTime w crossingId with
      | Return result => fetchAll_loop w rest (results ++ [result])
      | Throw message =>
          fetchAll_loop w rest
            (results ++ [mkTravelTime crossingId None (Some message) (new_Date w crossingId)])
      end
  end.

Definition fetchAllTravelTimes (w : World) : Completion (list TravelTime) :=
  fetchAll_loop w (keys ROUTES) [].

(** [API_KEY] is [process.env.GOOGLE_MAPS_API_KEY]: absent, or a string.
    [!!API_KEY] is false for the empty string too. *)
Definition isConfigured (API_KEY : option string) : bool :=
  match API_KEY with
  | None => false
  | Some k => negb (String.eqb k "")
  end.

End Traffic.

(** * db.js *)

Module Db.

(** The text ['YYYY-MM-DD HH:MM:SS'] stored in [recorded_at], kept as the
    fields it spells (the month is 1-based). *)
Record LocalTimestamp : Type := mkLocal {
  local_year : Z;
  local_month : Z;
  local_day : Z;
  local_hours : Z;
  local_minutes : Z;
  local_seconds : Z
}.

(** A row of the table [readings].  The [id] column is never read by the
    program and is left out. *)
Record Reading : Type := mkReading {
  crossing_id : string;
  wait_time : Z;
  recorded_at : LocalTimestamp
}.

Definition Table : Type := list Reading.

(** [addReading]: the row is appended; [fault = Some m] is the case where
    SQLite refuses the write and [insertReading.run] throws [m]. *)
Definition addReading (fault : option string) (readings : Table)
           (crossingId : string) (waitTime : Z) (timestamp : Date) : Completion Table :=
  let localTimestamp :=
    mkLocal (getFullYear timestamp) (getMonth timestamp + 1) (getDate timestamp)
            (getHours timestamp) (getMinutes timestamp) (getSeconds timestamp) in
  match fault with
  | Some m => Throw m
  | None => Return (readings ++ [mkReading crossingId waitTime localTimestamp])
  end.

(** [strftime('%w', recorded_at)]: SQLite takes the Julian day number of
    the date and reduces it modulo 7; 0 is Sunday. *)
Definition strftime_w (t : LocalTimestamp) : Z :=
  let Y := if local_month t <=? 2 then local_year t - 1 else local_year t in
  let M := if local_month t <=? 2 then local_month t + 12 else local_month t in
  let A := Z.quot Y 100 in
  let B := 2 - A + Z.quot A 4 in
  let X1 := Z.quot (36525 * (Y + 4716)) 100 in
  let X2 := Z.quot (306001 * (M + 1)) 10000 in
  Z.rem (X1 + X2 + local_day t + B - 1523) 7.

(** [strftime('%H', recorded_at)] *)
Definition strftime_H (t : LocalTimestamp) : Z := local_hours t.

(** The grouping key of a row: [(day_of_week, hour)]. *)
Definition group_key (r : Reading) : Z * Z :=
  (strftime_w (recorded_at r), strftime_H (recorded_at r)).

Definition key_eqb (a b : Z * Z) : bool := (a.1 =? b.1) && (a.2 =? b.2).

Definition key_ltb (a b : Z * Z) : bool :=
  (a.1 <? b.1) || ((a.1 =? b.1) && (a.2 <? b.2)).

(** [GROUP BY day_of_week, hour ORDER BY day_of_week, hour]: the distinct
    keys in increasing order. *)
Fixpoint insert_key (k : Z * Z) (ks : list (Z * Z)) : list (Z * Z) :=
  match ks with
  | [] => [k]
  | k' :: rest =>
      if key_eqb k k' then ks
      else if key_ltb k k' then k :: ks
      else k' :: insert_key k rest
  end.

Definition group_keys (rows : Table) : list (Z * Z) :=
  fold_right (fun r ks => insert_key (group_key r) ks) [] rows.

Definition SUM (rows : Table) : Z := fold_right (fun r acc => wait_time r + acc) 0 rows.

Definition COUNT (rows : Table) : Z := Z.of_nat (length rows).

(** [ROUND(AVG(wait_time))] over a non-empty group: SQLite divides the sum
    by the count and rounds to the nearest integer, a tie going away from
    zero. *)
Definition ROUND_AVG (rows : Table) : Z :=
  let s := SUM rows in
  let n := COUNT rows in
  if 0 <=? s then (2 * s + n) / (2 * n) else - ((2 * (- s) + n) / (2 * n)).

Record HeatmapRow : Type := mkRow {
  day_of_week : Z;
  hour : Z;
  avg_time : Z;
  sample_count : Z
}.

Definition in_group (k : Z * Z) (r : Reading) : bool := key_eqb (group_key r) k.

(** The prepared statement [getHeatmapData], run with [.all(crossingId)]. *)
Definition getHeatmapData (readings : Table) (crossingId : string) : list HeatmapRow :=
  let selected := List.filter (fun r => String.eqb (crossing_id r) crossingId) readings in
  map (fun k =>
         let group := List.filter (in_group k) selected in
         mkRow k.1 k.2 (ROUND_AVG group) (COUNT group))
      (group_keys selected).

Record HeatmapCell : Type := mkCell {
  day : string;
  dayIndex : nat;
  cell_hour : Z;
  avgTime : option Z;
  sampleCount : Z;
  label : string
}.

Record Historical : Type := mkHistorical {
  hist_hours : list Z;
  days : list string;
  heatmap : list HeatmapCell
}.

(** The template literal [`${n}`] for an integer. *)
Definition show (n : Z) : string := NilZero.string_of_int (Z.to_int n).

(** [for (let h = 0; h <= 23; h++) hours.push(h)] *)
Definition hours : list Z := map Z.of_nat (seq 0 24).

Definition dayOrder : list Z := [1; 2; 3; 4; 5; 6; 0].

Definition dayNames : list string := ["Mon"; "Tue"; "Wed"; "Thu"; "Fri"; "Sat"; "Sun"].

(** The body of the inner [forEach]. *)
Definition cell (rows : list HeatmapRow) (dbDayIndex : Z) (displayIndex : nat) (hour_ : Z)
  : HeatmapCell :=
  let row := List.find (fun r => (day_of_week r =? dbDayIndex) && (hour r =? hour_)) rows in
  let displayHour := if hour_ =? 0 then 12 else if hour_ >? 12 then hour_ - 12 else hour_ in
  let ampm := if hour_ >=? 12 then "pm" else "am" in
  mkCell (default "" (dayNames !! displayIndex))
         displayIndex
         hour_
         (match row with Some r => Some (avg_time r) | None => None end)
         (match row with Some r => sample_count r | None => 0 end)
         (show displayHour +:+ ampm).

Definition getHistoricalData (readings : Table) (crossingId : string) : Historical :=
  let rows := getHeatmapData readings crossingId in
  let heatmap :=
    concat (imap (fun displayIndex dbDayIndex =>
                    map (cell rows dbDayIndex displayIndex) hours)
                 dayOrder) in
  mkHistorical hours dayNames heatmap.

(** The prepared statement [getReadingCount], run by [getCount]. *)
Definition getCount (readings : Table) (crossingId : string) : Z :=
  COUNT (List.filter (fun r => String.eqb (crossing_id r) crossingId) readings).

End Db.

(** * app.js *)

Module App.
Import Traffic.

Record Crossing : Type := mkCrossing {
  id : string;
  crossing_name : string;
  direction : string;
  area : string;
  icon : string
}.

Definition CROSSINGS : list Crossing :=
  [ mkCrossing "gwb-into" "George Washington Bridge" "Into Manhattan" "Upper Manhattan" "🌉";
    mkCrossing "gwb-out" "George Washington Bridge" "Out of Manhattan" "To New Jersey" "🌉";
    mkCrossing "lincoln-into" "Lincoln Tunnel" "Into Manhattan" "Midtown" "🚇";
    mkCrossing "lincoln-out" "Lincoln Tunnel" "Out of Manhattan" "To New Jersey" "🚇";
    mkCrossing "holland-into" "Holland Tunnel" "Into Manhattan" "Lower Manhattan" "🚗";
    mkCrossing "holland-out" "Holland Tunnel" "Out of Manhattan" "To New Jersey" "🚗" ].

(** ** The cache and the event loop *)

(** A promise is named by the index of the [refreshTrafficData()] call it
    belongs to.  [refreshPromise = None] stands for [null] and for the
    missing property alike: the program only tests it for truthiness. *)
Record TrafficCache : Type := mkCache {
  data : option (list TravelTime);
  lastUpdated : option Date;
  refreshPromise : option nat
}.

Definition CACHE_TTL : Z := 10 * 60 * 1000.

Definition getStatus (waitTime : Z) : string * string :=
  if waitTime <=? 15 then ("Light", "good")
  else if waitTime <=? 25 then ("Moderate", "moderate")
  else ("Heavy", "heavy").

(** How a promise of traffic data settles. *)
Definition Result : Type := Completion (list TravelTime).

(** A call of [refreshTrafficData()]: suspended at its [await] (and
    whether [.finally] was chained on it, which only [getCurrentTraffic]
    does), or settled. *)
Inductive RefreshCall : Type :=
| Pending (has_finally : bool)
| Settled (result : Result).

(** A call of [getCurrentTraffic()]: suspended on a promise, or done. *)
Inductive Call : Type :=
| Awaiting (promise : nat)
| Done (result : Result).

(** The process: the module-level [trafficCache], the table behind [db],
    how many times [traffic.fetchAllTravelTimes()] has been called, and the
    calls of the two async functions, in order of arrival. *)
Record State : Type := mkState {
  trafficCache : TrafficCache;
  readings : Db.Table;
  batches : nat;
  refreshes : list RefreshCall;
  calls : list Call
}.

Definition init (readings : Db.Table) : State :=
  mkState (mkCache None None None) readings 0 [] [].

(** The loop [for (const result of results)] of [refreshTrafficData].
    [faults k] tells whether the [k]-th write of this loop is refused by
    SQLite.  The rows written before a refused write stay. *)
Fixpoint store_results (faults : nat -> option string) (k : nat)
         (results : list TravelTime) (readings : Db.Table) : Db.Table * Completion () :=
  match results with
  | [] => (readings, Return ())
  | result :: rest =>
      match waitTime result with
      | Some waitTime_ =>
          match Db.addReading (faults k) readings (crossingId result) waitTime_ (timestamp result) with
          | Return readings' => store_results faults (S k) rest readings'
          | Throw m => (readings, Throw m)
          end
      | None => store_results faults k rest readings
      end
  end.

(** [refreshTrafficData()] up to its [await]: the batch of fetches is
    started, and the call is suspended. *)
Definition refreshTrafficData_start (has_finally : bool) (s : State) : State :=
  mkState (trafficCache s) (readings s) (S (batches s))
          (refreshes s ++ [Pending has_finally]) (calls s).

(** [refreshTrafficData()] from its [await] on: [w] is what the world
    answered to the batch, [now] is [new Date()].  The [catch] logs and
    throws again. *)
Definition refreshTrafficData_resume (w : World) (faults : nat -> option string) (now : Date)
           (s : State) : State * Result :=
  match fetchAllTravelTimes w with
  | Throw m => (s, Throw m)
  | Return results =>
      match store_results faults 0 results (readings s) with
      | (readings', Throw m) =>
          (mkState (trafficCache s) readings' (batches s) (refreshes s) (calls s), Throw m)
      | (readings', Return _) =>
          (mkState (mkCache (Some results) (Some now) None)
                   readings' (batches s) (refreshes s) (calls s),
           Return results)
      end
  end.

(** [cacheAge]; [None] is [Infinity]. *)
Definition cacheAge (c : TrafficCache) (now : Z) : option Z :=
  match lastUpdated c with
  | Some d => Some (now - getTime d)
  | None => None
  end.

(** [trafficCache.data && cacheAge < CACHE_TTL] *)
Definition fresh (c : TrafficCache) (now : Z) : bool :=
  match data c, cacheAge c now with
  | Some _, Some age => age <? CACHE_TTL
  | _, _ => false
  end.

Definition set_refreshPromise (p : option nat) (s : State) : State :=
  mkState (mkCache (data (trafficCache s)) (lastUpdated (trafficCache s)) p)
          (readings s) (batches s) (refreshes s) (calls s).

Definition push_call (c : Call) (s : State) : State :=
  mkState (trafficCache s) (readings s) (batches s) (refreshes s) (calls s ++ [c]).

(** [await promise] *)
Definition await (promise : nat) (s : State) : Call :=
  match refreshes s !! promise with
  | Some (Settled result) => Done result
  | _ => Awaiting promise
  end.

(** [getCurrentTraffic()], up to its first suspension; [now] is
    [Date.now()]. *)
Definition getCurrentTraffic (now : Z) (s : State) : State :=
  match (if fresh (trafficCache s) now then data (trafficCache s) else None) with
  | Some cached => push_call (Done (Return cached)) s
  | None =>
      match refreshPromise (trafficCache s) with
      | Some promise => push_call (await promise s) s
      | None =>
          let promise := length (refreshes s) in
          let s1 := refreshTrafficData_start true s in
          let s2 := set_refreshPromise (Some promise) s1 in
          push_call (Awaiting promise) s2
      end
  end.

Definition resume_call (r : nat) (result : Result) (c : Call) : Call :=
  match c with
  | Awaiting promise => if Nat.eqb promise r then Done result else c
  | Done _ => c
  end.

(** The batch of refresh [r] is over.  In one run of the microtask queue:
    [refreshTrafficData] resumes and settles, the [.finally] callback (if
    any) clears the marker of the current [trafficCache], and the callers
    suspended on the promise resume. *)
Definition complete (r : nat) (w : World) (faults : nat -> option string) (now : Date)
           (s : State) : State :=
  match refreshes s !! r with
  | Some (Pending has_finally) =>
      let '(s1, result) := refreshTrafficData_resume w faults now s in
      let s2 := if has_finally then set_refreshPromise None s1 else s1 in
      mkState (trafficCache s2) (readings s2) (batches s2)
              (<[r := Settled result]> (refreshes s2))
              (map (resume_call r result) (calls s2))
  | _ => s
  end.

(** What can happen to the coordinator. *)
Inductive Event : Type :=
| Get (now : Z)
| Refresh
| Complete (r : nat) (w : World) (faults : nat -> option string) (now : Date).

Definition step (s : State) (e : Event) : State :=
  match e with
  | Get now => getCurrentTraffic now s
  | Refresh => refreshTrafficData_start false s
  | Complete r w faults now => complete r w faults now s
  end.

Definition run (s : State) (es : list Event) : State := fold_left step es s.

(** The number of refreshes in flight. *)
Definition in_flight (s : State) : nat :=
  length (List.filter (fun r => match r with Pending _ => true | Settled _ => false end)
                      (refreshes s)).

(** ** The routes *)

(** [POST /api/refresh], past the admin-key check. *)
Definition api_refresh (s : State) : State := step s Refresh.

(** The last statement of the module: the fetch at startup; the timer is
    set in the same branch. *)
Definition startup (API_KEY : option string) (s : State) : State :=
  if isConfigured API_KEY then step s Refresh else s.

(** The callback of [setInterval], which exists only when configured. *)
Definition timer_tick (API_KEY : option string) (s : State) : State :=
  if isConfigured API_KEY then step s Refresh else s.

Inductive WaitTimeView : Type :=
| Minutes (m : Z)
| Dashes.

(** An element of the answer of [GET /api/crossings]: the crossing's own
    properties, then the rest.  [updatedAt] is kept as the epoch time that
    [toISOString] prints. *)
Record CrossingView : Type := mkView {
  crossing : Crossing;
  view_waitTime : WaitTimeView;
  status : string;
  statusClass : string;
  updatedAt : Z;
  view_error : option string
}.

(** [random i] is what [Math.random()] gives for the [i]-th crossing, and
    [clock i] what [new Date()] gives there. *)
Definition mock_view (random : nat -> Q) (clock : nat -> Date) (i : nat) (c : Crossing)
  : CrossingView :=
  let delay := Qfloor (random i * 31) in
  let waitTime := 10 + delay in
  let '(status, statusClass) := getStatus waitTime in
  mkView c (Minutes waitTime) status statusClass (getTime (clock i)) None.

Definition real_view (trafficData : list TravelTime) (cache : TrafficCache)
           (clock : nat -> Date) (i : nat) (c : Crossing) : CrossingView :=
  let trafficResult := List.find (fun t => String.eqb (crossingId t) (id c)) trafficData in
  let waitTime := match trafficResult with Some t => waitTime t | None => None end in
  let updatedAt := match lastUpdated cache with
                   | Some d => getTime d
                   | None => getTime (clock i)
                   end in
  match waitTime with
  | None =>
      mkView c Dashes "Unknown" "unknown" updatedAt
             (match trafficResult with Some t => error t | None => None end)
  | Some waitTime =>
      let '(status, statusClass) := getStatus waitTime in
      mkView c (Minutes waitTime) status statusClass updatedAt None
  end.

Inductive Reply (A : Type) : Type :=
| Json (body : A)
| Error (code : Z) (message : string)
| Suspended.
Arguments Json {A} body.
Arguments Error {A} code message.
Arguments Suspended {A}.

(** [GET /api/crossings].  When the handler is suspended on a refresh it
    answers later, from the result of that refresh. *)
Definition api_crossings (API_KEY : option string) (random : nat -> Q) (clock : nat -> Date)
           (now : Z) (s : State) : State * Reply (list CrossingView) :=
  if negb (isConfigured API_KEY) then
    (s, Json (imap (mock_view random clock) CROSSINGS))
  else
    let s' := getCurrentTraffic now s in
    match last (calls s') with
    | Some (Done (Return trafficData)) =>
        (s', Json (imap (real_view trafficData (trafficCache s') clock) CROSSINGS))
    | Some (Done (Throw _)) =>
        (s', Error 500 "Sorry, traffic data is temporarily unavailable.")
    | _ => (s', Suspended)
    end.

(** [GET /api/crossings/:id/history] *)
Definition api_history (crossingId : string) (s : State) : Reply Db.Historical :=
  match List.find (fun c => String.eqb (id c) crossingId) CROSSINGS with
  | None => Error 400 "Invalid crossing ID"
  | Some _ => Json (Db.getHistoricalData (readings s) crossingId)
  end.

(** ** [POST /api/readings] *)

(** A JavaScript number: a finite double is kept as the rational it
    denotes. *)
Inductive Num : Type :=
| NaN
| Infinity (negative : bool)
| Finite (q : Q).

(** A property of the parsed JSON body.  An array or object is kept as the
    string that [ToPrimitive] turns it into. *)
Inductive Value : Type :=
| Undefined
| Null
| Bool (b : bool)
| Number (n : Num)
| Str (s : string)
| Object (toPrimitive : string).

Record Body : Type := mkBody { body_crossingId : Value; body_waitTime : Value }.

Inductive Answer : Type :=
| BadRequest (error : string)
| Success.

(** [!v] *)
Definition falsy (v : Value) : bool :=
  match v with
  | Undefined | Null => true
  | Bool b => negb b
  | Number NaN => true
  | Number (Infinity _) => false
  | Number (Finite q) => Qeq_bool q 0
  | Str s => String.eqb s ""
  | Object _ => false
  end.

(** [typeof v === 'string'] *)
Definition is_string (v : Value) : bool :=
  match v with
  | Str _ => true
  | _ => false
  end.

(** [c.id === v] *)
Definition strict_eq (s : string) (v : Value) : bool :=
  match v with
  | Str s' => String.eqb s s'
  | _ => false
  end.

(** [Number.isInteger(n)], giving the integer when there is one. *)
Definition integer_value (n : Num) : option Z :=
  match n with
  | Finite q => if Qeq_bool q (inject_Z (Qfloor q)) then Some (Qfloor q) else None
  | _ => None
  end.

Section Readings.

(** The conversion of a string to a number is the engine's. *)
Variable StringToNumber : string -> Num.

(** [Number(v)] *)
Definition ToNumber (v : Value) : Num :=
  match v with
  | Undefined => NaN
  | Null => Finite 0
  | Bool b => if b then Finite 1 else Finite 0
  | Number n => n
  | Str s => StringToNumber s
  | Object s => StringToNumber s
  end.

(** The handler, past the rate limiter and the admin-key check.
    [fault] is the write refused by SQLite, [now] the default
    [timestamp] of [addReading].  The id given to [addReading] is written
    [id validCrossing]: it is the string [crossingId], which [find] compared
    to it with [===]. *)
Definition api_readings (fault : option string) (now : Date) (body : Body)
           (readings : Db.Table) : Completion (Answer * Db.Table) :=
  let crossingId := body_crossingId body in
  let waitTime := body_waitTime body in
  if falsy crossingId || negb (is_string crossingId) then
    Return (BadRequest "crossingId is required and must be a string", readings)
  else
    match List.find (fun c => strict_eq (id c) crossingId) CROSSINGS with
    | None => Return (BadRequest "Invalid crossingId", readings)
    | Some validCrossing =>
        match waitTime with
        | Undefined | Null => Return (BadRequest "waitTime is required", readings)
        | _ =>
            let waitTimeNum := ToNumber waitTime in
            match integer_value waitTimeNum with
            | Some n =>
                if (n <? 0) || (n >? 300) then
                  Return (BadRequest "waitTime must be an integer between 0 and 300 minutes",
                          readings)
                else
                  readings' ← Db.addReading fault readings (id validCrossing) n now;
                  Return (Success, readings')
            | None =>
                Return (BadRequest "waitTime must be an integer between 0 and 300 minutes",
                        readings)
            end
        end
    end.

End Readings.

(** ** The protected routes *)

(** What [requireAdminKey] reads of a request: the header [x-api-key] and
    the query parameter [apiKey]. *)
Record Credentials : Type := mkCredentials {
  header_x_api_key : Value;
  query_apiKey : Value
}.

(** [a || b] *)
Definition or_else (a b : Value) : Value := if falsy a then b else a.

(** [requireAdminKey]: whether [next()] is called; otherwise the answer is
    401. *)
Definition requireAdminKey (ADMIN_API_KEY : string) (req : Credentials) : bool :=
  let apiKey := or_else (header_x_api_key req) (query_apiKey req) in
  if falsy apiKey || negb (strict_eq ADMIN_API_KEY apiKey) then false else true.

Definition set_readings (readings' : Db.Table) (s : State) : State :=
  mkState (trafficCache s) readings' (batches s) (refreshes s) (calls s).

(** [app.post('/api/readings', strictLimiter, requireAdminKey, ...)].
    [limited] tells whether the rate limiter refuses the request. *)
Definition post_api_readings (StringToNumber : string -> Num) (limited : bool)
           (ADMIN_API_KEY : string) (req : Credentials) (fault : option string) (now : Date)
           (body : Body) (s : State) : State * Completion (Reply Answer) :=
  if limited then
    (s, Return (Error 429 "Sorry, please wait a moment before trying again."))
  else if negb (requireAdminKey ADMIN_API_KEY req) then
    (s, Return (Error 401 "Unauthorized: Invalid or missing API key"))
  else
    match api_readings StringToNumber fault now body (readings s) with
    | Return (BadRequest e, _) => (s, Return (Error 400 e))
    | Return (Success, readings') => (set_readings readings' s, Return (Json Success))
    | Throw m => (s, Throw m)
    end.

(** [app.post('/api/refresh', strictLimiter, requireAdminKey, ...)]: once
    past the two middlewares the handler is suspended on the refresh. *)
Definition post_api_refresh (limited : bool) (ADMIN_API_KEY : string) (req : Credentials)
           (s : State) : State * Reply () :=
  if limited then
    (s, Error 429 "Sorry, please wait a moment before trying again.")
  else if negb (requireAdminKey ADMIN_API_KEY req) then
    (s, Error 401 "Unauthorized: Invalid or missing API key")
  else
    (api_refresh s, Suspended).

(** ** [GET /api/stats] *)

Record CrossingStats : Type := mkCrossingStats {
  stats_id : string;
  stats_name : string;
  stats_direction : string;
  readingCount : Z
}.

Record Stats : Type := mkStats {
  stats_crossings : list CrossingStats;
  apiConfigured : bool;
  stats_cacheAge : option Z
}.

(** [now] is [Date.now()]; a [cacheAge] of [None] is [null]. *)
Definition api_stats (API_KEY : option string) (now : Z) (s : State) : Stats :=
  mkStats
    (map (fun crossing =>
            mkCrossingStats (id crossing) (crossing_name crossing) (direction crossing)
                            (Db.getCount (readings s) (id crossing)))
         CROSSINGS)
    (isConfigured API_KEY)
    (match lastUpdated (trafficCache s) with
     | Some d => Some (Math_round_div (now - getTime d) 1000)
     | None => None
     end).

End App.

(** * The page script *)

Module Client.
Import App.

(** ** The limit on manual refreshes *)

Definition REFRESH_LIMIT : nat := 3.

Definition REFRESH_WINDOW : Z := 60 * 1000.

Definition COOLDOWN_TIME : Z := 30 * 1000.

(** The two variables [refreshTimestamps] and [cooldownUntil]
    ([None] is [null]). *)
Record Limiter : Type := mkLimiter {
  refreshTimestamps : list Z;
  cooldownUntil : option Z
}.

Definition start : Limiter := mkLimiter [] None.

(** The truthiness of [cooldownUntil]: [null] and [0] are falsy. *)
Definition truthy (c : option Z) : bool :=
  match c with
  | Some v => negb (v =? 0)
  | None => false
  end.

(** [now < cooldownUntil], for a [cooldownUntil] that is a number. *)
Definition before (now : Z) (c : option Z) : bool :=
  match c with
  | Some v => now <? v
  | None => false
  end.

(** [canRefresh()]: its result and the variables after it; [now] is its
    [Date.now()]. *)
Definition canRefresh (now : Z) (l : Limiter) : bool * Limiter :=
  if truthy (cooldownUntil l) && before now (cooldownUntil l) then (false, l)
  else
    let l1 := if truthy (cooldownUntil l) && negb (before now (cooldownUntil l))
              then mkLimiter [] None else l in
    let kept := List.filter (fun t => now - t <? REFRESH_WINDOW) (refreshTimestamps l1) in
    ((length kept <? REFRESH_LIMIT)%nat, mkLimiter kept (cooldownUntil l1)).

(** [recordRefresh()]; [now1] and [now2] are its two [Date.now()]. *)
Definition recordRefresh (now1 now2 : Z) (l : Limiter) : Limiter :=
  let pushed := refreshTimestamps l ++ [now1] in
  if (REFRESH_LIMIT <=? length pushed)%nat
  then mkLimiter pushed (Some (now2 + COOLDOWN_TIME))
  else mkLimiter pushed (cooldownUntil l).

(** A click on the refresh button. *)
Record Click : Type := mkClick { at_canRefresh : Z; at_push : Z; at_cooldown : Z }.

(** [manualRefresh()]: the variables after it, and the calls of
    [fetchCrossings()] so far. *)
Definition manualRefresh (c : Click) (st : Limiter * nat) : Limiter * nat :=
  let '(ok, l1) := canRefresh (at_canRefresh c) st.1 in
  if negb ok then (l1, st.2)
  else (recordRefresh (at_push c) (at_cooldown c) l1, S st.2).

Definition clicks (cs : list Client.Click) (st : Limiter * nat) : Limiter * nat :=
  fold_left (fun st c => manualRefresh c st) cs st.

(** ** The cards *)

(** [typeof waitTime === 'number' ? waitTime : Infinity]; [None] is
    [Infinity]. *)
Definition time_of (w : WaitTimeView) : option Z :=
  match w with
  | Minutes m => Some m
  | Dashes => None
  end.

(** [a < b] on such times. *)
Definition time_lt (a b : option Z) : bool :=
  match a, b with
  | Some x, Some y => x <? y
  | Some _, None => true
  | None, _ => false
  end.

Definition is_Infinity (a : option Z) : bool :=
  match a with
  | Some _ => false
  | None => true
  end.

(** [intoFaster] and [outFaster] of [renderCrossings]. *)
Definition faster (into out : CrossingView) : bool * bool :=
  let intoTime := time_of (view_waitTime into) in
  let outTime := time_of (view_waitTime out) in
  let intoFaster := time_lt intoTime outTime && negb (is_Infinity intoTime) in
  let outFaster := time_lt outTime intoTime && negb (is_Infinity outTime) in
  (intoFaster, outFaster).

(** ** The heatmap *)

(** [heatmap.some(cell => cell.avgTime !== null)] *)
Definition hasData (data : Db.Historical) : bool :=
  existsb (fun cell => match Db.avgTime cell with Some _ => true | None => false end)
          (Db.heatmap data).

Definition peakHours : list Z := [6; 7; 8; 9; 10; 16; 17; 18; 19; 20].

(** The hours shown: [isMobile ? peakHours : data.hours]. *)
Definition shown_hours (isMobile : bool) (data : Db.Historical) : list Z :=
  if isMobile then peakHours else Db.hist_hours data.

(** [heatmap.find(h => h.dayIndex === dayIndex && h.hour === hour)] *)
Definition find_cell (data : Db.Historical) (dayIndex : nat) (hour : Z) : option Db.HeatmapCell :=
  List.find (fun h => Nat.eqb (Db.dayIndex h) dayIndex && (Db.cell_hour h =? hour))
            (Db.heatmap data).

(** What a box of the grid shows: the title and the text, and the colour
    when there is data. *)
Inductive Box : Type :=
| NoData (title : string)
| Filled (colour : Z * Z * Z) (title : string) (text : Z).

(** [Math.round (n / d)] for a rational [n / d]. *)
Definition Math_round (x : Q) : Z := Qfloor (x + (1 # 2)).

(** [getHeatmapColor]: the three numbers of [rgb(r, g, b)], for a whole
    number of minutes, which is what the server sends.  The arithmetic is
    exact here; the doubles of the source round to the same integers, since
    what is rounded is then a multiple of 1/37 and so never within 1/74 of a
    half. *)
Definition getHeatmapColor (value : Z) : Z * Z * Z :=
  let min := 8 in
  let max := 45 in
  let normalized :=
    Qmax 0 (Qmin 1 (inject_Z (value - min) / inject_Z (max - min)))%Q in
  if negb (Qle_bool (1 # 2) normalized) then
    let t := (normalized * 2)%Q in
    (Math_round (34 + (234 - 34) * t),
     Math_round (197 + (179 - 197) * t),
     Math_round (94 + (8 - 94) * t))
  else
    let t := ((normalized - (1 # 2)) * 2)%Q in
    (Math_round (234 + (239 - 234) * t),
     Math_round (179 + (68 - 179) * t),
     Math_round (8 + (68 - 8) * t)).

(** The body of the inner [forEach] of [renderHeatmap]. *)
Definition box (data : Db.Historical) (day : string) (dayIndex : nat) (hour : Z) : Box :=
  let cell := find_cell data dayIndex hour in
  let avgTime := match cell with Some c => Db.avgTime c | None => None end in
  let label := match cell with
               | Some c => Db.label c
               | None => Db.show (if hour >? 12 then hour - 12 else hour)
                         +:+ (if hour >=? 12 then "pm" else "am")
               end in
  match avgTime with
  | None => NoData (day +:+ " " +:+ label +:+ ": No data")
  | Some avgTime =>
      Filled (getHeatmapColor avgTime)
             (day +:+ " " +:+ label +:+ ": " +:+ Db.show avgTime +:+ " min")
             avgTime
  end.

(** ** The time of the last update *)

(** What [getRelativeTime] returns: one of its four texts, or the time of
    day that [toLocaleTimeString] prints. *)
Inductive RelativeTime : Type :=
| JustNow
| SecAgo (diffSec : Z)
| OneMinAgo
| MinAgo (diffMin : Z)
| TimeOfDay (date : Date).

(** [now] is [Date.now()]. *)
Definition getRelativeTime (now : Z) (date : Date) : RelativeTime :=
  let diffMs := now - getTime date in
  let diffSec := diffMs / 1000 in
  let diffMin := diffSec / 60 in
  if diffSec <? 10 then JustNow
  else if diffSec <? 60 then SecAgo diffSec
  else if diffMin =? 1 then OneMinAgo
  else if diffMin <? 60 then MinAgo diffMin
  else TimeOfDay date.

(** The text of the first four. *)
Definition relative_text (r : RelativeTime) : option string :=
  match r with
  | JustNow => Some "Just now"
  | SecAgo diffSec => Some (Db.show diffSec +:+ " sec ago")
  | OneMinAgo => Some "1 min ago"
  | MinAgo diffMin => Some (Db.show diffMin +:+ " min ago")
  | TimeOfDay _ => None
  end.

End Client.

(** * Vocabulary of the properties *)

Import Traffic App.

(** What a batch holds for one crossing: the value of its own fetch, or its
    own failure. *)
Definition entry_of (w : World) (id : string) : TravelTime :=
  match fetchTravelTime w id with
  | Return t => t
  | Throw m => mkTravelTime id None (Some m) (new_Date w id)
  end.

(** The [Reading] that a result with a wait-time stands for. *)
Definition reading_of (crossingId : string) (waitTime : Z) (timestamp : Date) : Db.Reading :=
  Db.mkReading crossingId waitTime
    (Db.mkLocal (getFullYear timestamp) (getMonth timestamp + 1) (getDate timestamp)
                (getHours timestamp) (getMinutes timestamp) (getSeconds timestamp)).

(** The readings of the results that have a wait-time, in order. *)
Definition persisted (results : list TravelTime) : Db.Table :=
  flat_map (fun r => match waitTime r with
                     | Some n => [reading_of (crossingId r) n (timestamp r)]
                     | None => []
                     end) results.

(** The states the process can be in: what the events lead to from the
    start. *)
Definition reachable (s : State) : Prop :=
  exists readings es, s = run (init readings) es.


(** The marker, when set, names a refresh that is suspended and has the
    [.finally] callback that will clear it. *)
Definition marker_ok (s : State) : Prop :=
  forall p, refreshPromise (trafficCache s) = Some p -> refreshes s !! p = Some (Pending true).

(** A request was refused with status 400. *)
Definition rejected (r : Completion (Answer * Db.Table)) : Prop :=
  exists e tbl, r = Return (BadRequest e, tbl).

(** The value is the id of one of the six crossings. *)
Definition known_id (v : Value) : Prop :=
  exists c, In c CROSSINGS /\ v = Str (App.id c).

(** The value is a number, and that number is an integer of [0, 300]. *)
Definition integer_in_range (v : Value) : Prop :=
  exists z q, 0 <= z <= 300 /\ v = Number (Finite q) /\ Qeq q (inject_Z z).

(** The value is neither [undefined] nor [null], and [Number] turns it into
    the integer [z] of [0, 300]. *)
Definition coerces_in_range (StringToNumber : string -> Num) (v : Value) (z : Z) : Prop :=
  v <> Undefined /\ v <> Null /\
  integer_value (ToNumber StringToNumber v) = Some z /\ 0 <= z <= 300.

(** A run of [GET /api/crossings] requests, each with its draws of
    [Math.random], its clock and its [Date.now()]. *)
Definition serve_crossings (API_KEY : option string)
           (requests : list ((nat -> Q) * (nat -> Date) * Z)) (s : State) : State :=
  fold_left (fun st '(random, clock, now) => (api_crossings API_KEY random clock now st).1)
            requests s.

(** The seconds a leg counts for: with traffic when the API gives it. *)
Definition leg_seconds (leg : Leg) : Z :=
  match duration_in_traffic leg with
  | Some v => v
  | None => duration leg
  end.

Definition total_seconds (ls : list Leg) : Z :=
  fold_right (fun leg acc => leg_seconds leg + acc) 0 ls.

(** The world never answers a negative duration for a leg of the first
    route. *)
Definition nonneg_world (w : World) : Prop :=
  forall route data rd others ls leg,
    fetch_json w route = Return data ->
    routes data = Some (rd :: others) ->
    legs rd = Some ls ->
    In leg ls ->
    0 <= leg_seconds leg.

(** The event is a direct call of [refreshTrafficData()]. *)
Definition is_Refresh (e : Event) : bool :=
  match e with
  | Refresh => true
  | _ => false
  end.

(** The readings of a crossing recorded on a day of the week (as SQLite
    numbers it) at an hour. *)
Definition bucket_of (readings : Db.Table) (crossingId : string) (d h : Z) : Db.Table :=
  List.filter (fun r => String.eqb (Db.crossing_id r) crossingId
                        && ((Db.strftime_w (Db.recorded_at r) =? d)
                            && (Db.strftime_H (Db.recorded_at r) =? h))) readings.

(** Every call suspended on a promise waits for a refresh that is still in
    flight. *)
Definition await_ok (s : State) : Prop :=
  forall i p, calls s !! i = Some (Awaiting p) -> refreshes s !! p = Some (Pending true).

(** Every refresh in flight is the one that the marker names. *)
Definition pending_is_marker (s : State) : Prop :=
  forall p b, refreshes s !! p = Some (Pending b) -> refreshPromise (trafficCache s) = Some p.

(** The sum of a list of integers. *)
Definition sum_Z (l : list Z) : Z := fold_right Z.add 0 l.


(** ** Sample inputs *)

(** Monday 1 January 2024, 08:00:00 local time. *)
Definition monday_8am : Date := mkDate 1704114000000 2024 0 1 8 0 0.

(** An answer of the Directions API with two legs, 720 seconds in all. *)
Definition twelve_minutes : Directions :=
  mkDirections "OK" (Some [mkRouteData (Some [mkLeg (Some 400) 380 900; mkLeg None 320 1100])]).

(** A batch in which the first crossing is refused by the API and the others
    take twelve minutes. *)
Definition world_one_failure : World :=
  mkWorld (fun route =>
             if String.eqb (origin route) "40.8509,-73.9630"
             then Return (mkDirections "OVER_QUERY_LIMIT" None)
             else Return twelve_minutes)
          (fun _ => monday_8am).

(** A batch in which every crossing takes twelve minutes. *)
Definition world_all_fine : World :=
  mkWorld (fun _ => Return twelve_minutes) (fun _ => monday_8am).


Definition no_faults : nat -> option string := fun _ => None.

(** The first write is refused. *)
Definition disk_full : nat -> option string :=
  fun k => match k with O => Some "database or disk is full" | S _ => None end.

(** * Properties of traffic.js *)

Lemma fetchAll_loop_spec (w : World) (ids : list string) (acc : list TravelTime) :
  fetchAll_loop w ids acc = Return (acc ++ map (entry_of w) ids).
Proof.
  revert acc; induction ids as [|id ids IH]; intros acc; simpl.
  - now rewrite app_nil_r.
  - unfold entry_of at 1.
    destruct (fetchTravelTime w id) as [t|m]; rewrite IH, <- app_assoc; reflexivity.
Qed.

Lemma fetchAllTravelTimes_spec (w : World) :
  fetchAllTravelTimes w = Return (map (entry_of w) (keys ROUTES)).
Proof. unfold fetchAllTravelTimes. now rewrite fetchAll_loop_spec. Qed.

Lemma fetchTravelTime_Return (w : World) (id : string) (t : TravelTime) :
  fetchTravelTime w id = Return t ->
  crossingId t = id /\ (exists n, waitTime t = Some n) /\ error t = None.
Proof.
  unfold fetchTravelTime.
  destruct (get_route ROUTES id) as [route|]; [|discriminate].
  destruct (fetch_json w route) as [data|]; simpl; [|discriminate].
  destruct (negb (String.eqb (Traffic.status data) "OK")); [discriminate|].
  destruct (routes data) as [[|rd ?]|]; try discriminate.
  destruct (legs rd) as [[|leg ls]|]; try discriminate.
  intros [= <-]; simpl; eauto.
Qed.

Lemma entry_of_crossingId (w : World) (id : string) : crossingId (entry_of w id) = id.
Proof.
  unfold entry_of. destruct (fetchTravelTime w id) as [t|m] eqn:E; [|reflexivity].
  now apply fetchTravelTime_Return in E.
Qed.

Lemma entry_of_cases (w : World) (id : string) :
  match fetchTravelTime w id with
  | Return t => entry_of w id = t /\ (exists n, waitTime (entry_of w id) = Some n)
                /\ error (entry_of w id) = None
  | Throw m => waitTime (entry_of w id) = None /\ error (entry_of w id) = Some m
  end.
Proof.
  unfold entry_of. destruct (fetchTravelTime w id) as [t|m] eqn:E; [|now split].
  apply fetchTravelTime_Return in E. tauto.
Qed.

(** C4.  The fetch of all locations never rejects: it returns one entry per
    monitored location, in order, and the entry of a location is the value
    of that location's own fetch (with an integer wait-time and no error) when
    it succeeded, and otherwise has a null wait-time and the message of that
    location's own failure. *)
Theorem fetchAllTravelTimes_isolates_failures (w : World) :
  exists results,
    fetchAllTravelTimes w = Return results /\
    map crossingId results = map App.id CROSSINGS /\
    Forall (fun r =>
              match fetchTravelTime w (crossingId r) with
              | Return t => r = t /\ (exists n : Z, waitTime r = Some n) /\ error r = None
              | Throw m => waitTime r = None /\ error r = Some m
              end) results.
Proof.
  exists (map (entry_of w) (keys ROUTES)). split; [apply fetchAllTravelTimes_spec|]. split.
  - rewrite map_map. change (map App.id CROSSINGS) with (keys ROUTES).
    induction (keys ROUTES) as [|k ks IH]; simpl; [reflexivity|].
    now rewrite entry_of_crossingId, IH.
  - apply List.Forall_forall. intros r Hr. apply in_map_iff in Hr as (k & <- & _).
    rewrite entry_of_crossingId. apply entry_of_cases.
Qed.

(** * Properties of the refresh *)

Lemma store_results_Return faults (results : list TravelTime) :
  forall k (tbl tbl' : Db.Table),
    store_results faults k results tbl = (tbl', Return ()) ->
    tbl' = tbl ++ persisted results.
Proof.
  induction results as [|r rs IH]; intros k tbl tbl'; simpl.
  - intros [= <-]. now rewrite app_nil_r.
  - destruct (waitTime r) as [n|]; simpl.
    + unfold Db.addReading. destruct (faults k); [discriminate|].
      intros H. apply IH in H. now rewrite H, <- app_assoc.
    + apply IH.
Qed.

Lemma resume_Return w faults now s s' results :
  refreshTrafficData_resume w faults now s = (s', Return results) ->
  results = map (entry_of w) (keys ROUTES) /\
  trafficCache s' = mkCache (Some results) (Some now) None /\
  readings s' = readings s ++ persisted results /\
  batches s' = batches s /\ refreshes s' = refreshes s /\ calls s' = calls s.
Proof.
  unfold refreshTrafficData_resume. rewrite fetchAllTravelTimes_spec.
  destruct (store_results _ _ _ _) as [tbl' [[]|m]] eqn:E; [|discriminate].
  intros [= <- <-]. simpl. apply store_results_Return in E. repeat split; auto.
Qed.

Lemma resume_Throw w faults now s s' m :
  refreshTrafficData_resume w faults now s = (s', Throw m) ->
  trafficCache s' = trafficCache s /\
  batches s' = batches s /\ refreshes s' = refreshes s /\ calls s' = calls s.
Proof.
  unfold refreshTrafficData_resume.
  destruct (fetchAllTravelTimes w) as [results|m']; [|intros [= <- _]; repeat split; auto].
  destruct (store_results _ _ _ _) as [tbl' [[]|m']]; [discriminate|].
  intros [= <- _]. repeat split; auto.
Qed.

Lemma persisted_entry w k :
  persisted [entry_of w k] =
  match fetchTravelTime w k with
  | Return t => match waitTime t with
                | Some n => [reading_of k n (timestamp t)]
                | None => []
                end
  | Throw _ => []
  end.
Proof.
  unfold persisted, entry_of; simpl.
  destruct (fetchTravelTime w k) as [t|m] eqn:E; simpl; [|reflexivity].
  apply fetchTravelTime_Return in E as (-> & _ & _).
  destruct (waitTime t); reflexivity.
Qed.

Lemma filter_persisted_head w k a :
  List.filter (fun r => String.eqb (Db.crossing_id r) k) (persisted [entry_of w a]) =
  if String.eqb a k then persisted [entry_of w a] else [].
Proof.
  rewrite persisted_entry.
  destruct (fetchTravelTime w a) as [t|m]; [|now destruct (String.eqb a k)].
  destruct (waitTime t); simpl; now destruct (String.eqb a k).
Qed.

Lemma filter_persisted_entries w k (ids : list string) :
  List.NoDup ids ->
  List.filter (fun r => String.eqb (Db.crossing_id r) k) (persisted (map (entry_of w) ids)) =
  if existsb (String.eqb k) ids then persisted [entry_of w k] else [].
Proof.
  induction 1 as [|a ids Ha Hnd IH]; [reflexivity|].
  change (persisted (map (entry_of w) (a :: ids)))
    with (persisted ([entry_of w a] ++ map (entry_of w) ids)).
  unfold persisted at 1. rewrite flat_map_app. fold (persisted [entry_of w a]).
  fold (persisted (map (entry_of w) ids)).
  rewrite List.filter_app, IH, filter_persisted_head. simpl existsb.
  rewrite (String.eqb_sym k a).
  destruct (String.eqb a k) eqn:E; simpl.
  - apply String.eqb_eq in E as ->.
    destruct (existsb (String.eqb k) ids) eqn:Ex; [|apply app_nil_r].
    apply existsb_exists in Ex as (x & Hx & Hk). apply String.eqb_eq in Hk as <-.
    contradiction.
  - reflexivity.
Qed.

Lemma keys_ROUTES_NoDup : List.NoDup (keys ROUTES).
Proof.
  unfold keys, ROUTES; simpl.
  repeat (constructor; [simpl; intros H; repeat destruct H as [H|H]; try discriminate H; exact H|]).
  constructor.
Qed.

(** C6.  A refresh that succeeds appends to the store exactly the readings of
    the results that have a wait-time, in order, and nothing else: for each
    monitored location whose fetch succeeded, one reading with that location's
    id, wait-time and timestamp; for each location whose fetch failed
    (wait-time null), none. *)
Theorem successful_refresh_persists w faults now (s s' : State) (results : list TravelTime) :
  refreshTrafficData_resume w faults now s = (s', Return results) ->
  readings s' = readings s ++ persisted results /\
  forall c, In c CROSSINGS ->
    List.filter (fun r => String.eqb (Db.crossing_id r) (App.id c)) (persisted results) =
    match fetchTravelTime w (App.id c) with
    | Return t => match waitTime t with
                  | Some n => [reading_of (App.id c) n (timestamp t)]
                  | None => []
                  end
    | Throw _ => []
    end.
Proof.
  intros H. apply resume_Return in H as (-> & _ & Hr & _). split; [exact Hr|].
  intros c Hc. rewrite (filter_persisted_entries w (App.id c) _ keys_ROUTES_NoDup).
  replace (existsb (String.eqb (App.id c)) (keys ROUTES)) with true.
  - apply persisted_entry.
  - simpl in Hc. repeat destruct Hc as [<-|Hc]; try reflexivity. contradiction.
Qed.

Lemma successful_refresh_persists_witness :
  exists s' results,
    refreshTrafficData_resume world_one_failure no_faults monday_8am (init []) = (s', Return results) /\
    map waitTime results = [None; Some 12; Some 12; Some 12; Some 12; Some 12] /\
    map Db.crossing_id (readings s') =
      ["gwb-out"; "lincoln-into"; "lincoln-out"; "holland-into"; "holland-out"] /\
    readings s' = readings (init []) ++ persisted results.
Proof.
  eexists _, _. split; [vm_compute; reflexivity|].
  split; [reflexivity|]. split; [reflexivity|].
  apply (successful_refresh_persists world_one_failure no_faults monday_8am (init [])).
  reflexivity.
Defined.

(** * Properties of the coordinator *)

(** C5.  A call of [getCurrentTraffic] made while cached data exists and is
    younger than the ten-minute TTL is done at once with the cached results:
    it is not suspended on a promise, no batch of fetches is started, and the
    cache, the store and the refreshes in flight are untouched. *)
Theorem fresh_cache_served_at_once (now : Z) (s : State) (cached : list TravelTime) (d : Date) :
  data (trafficCache s) = Some cached ->
  lastUpdated (trafficCache s) = Some d ->
  now - getTime d < CACHE_TTL ->
  let s' := getCurrentTraffic now s in
  calls s' = calls s ++ [Done (Return cached)] /\
  batches s' = batches s /\
  refreshes s' = refreshes s /\
  trafficCache s' = trafficCache s /\
  readings s' = readings s.
Proof.
  intros Hd Hl Hage. unfold getCurrentTraffic, fresh, cacheAge. rewrite Hd, Hl.
  apply Z.ltb_lt in Hage. rewrite Hage. simpl. repeat split.
Qed.

Lemma fresh_cache_served_at_once_witness :
  let s := mkState (mkCache (Some []) (Some monday_8am) None) [] 1 [Settled (Return [])] [] in
  calls (getCurrentTraffic 1704114599999 s) = [Done (Return [])] /\
  batches (getCurrentTraffic 1704114599999 s) = 1%nat.
Proof.
  intros s.
  destruct (fresh_cache_served_at_once 1704114599999 s [] monday_8am) as (Hc & Hb & _);
    [reflexivity | reflexivity | reflexivity |].
  split; [exact Hc | exact Hb].
Defined.

(** ** The marker names a refresh in flight *)

Lemma run_snoc (s : State) (es : list Event) (e : Event) :
  run s (es ++ [e]) = step (run s es) e.
Proof. unfold run. now rewrite fold_left_app. Qed.

Lemma marker_ok_get (now : Z) (s : State) : marker_ok s -> marker_ok (getCurrentTraffic now s).
Proof.
  intros Hs. unfold getCurrentTraffic.
  destruct (if fresh (trafficCache s) now then data (trafficCache s) else None); [exact Hs|].
  destruct (refreshPromise (trafficCache s)) eqn:Hp; [exact Hs|].
  intros p; simpl. intros [= <-]. apply list_lookup_middle. reflexivity.
Qed.

Lemma marker_ok_refresh (s : State) : marker_ok s -> marker_ok (refreshTrafficData_start false s).
Proof.
  intros Hs p; simpl. intros Hp. apply lookup_app_l_Some. now apply Hs.
Qed.

Lemma marker_ok_complete r w faults now (s : State) :
  marker_ok s -> marker_ok (complete r w faults now s).
Proof.
  intros Hs. unfold complete.
  destruct (refreshes s !! r) as [[has_finally|]|] eqn:Hr; try exact Hs.
  destruct (refreshTrafficData_resume w faults now s) as [s1 [results|m]] eqn:E.
  - apply resume_Return in E as (_ & Hc & _).
    intros p. destruct has_finally; simpl; [discriminate|]. now rewrite Hc.
  - apply resume_Throw in E as (Hc & _ & Hrs & _).
    intros p. destruct has_finally; simpl; [discriminate|].
    rewrite Hc, Hrs. intros Hp. apply Hs in Hp.
    rewrite list_lookup_insert_ne; [exact Hp|]. intros ->. congruence.
Qed.

Lemma marker_ok_step (s : State) (e : Event) : marker_ok s -> marker_ok (step s e).
Proof.
  destruct e; simpl;
    [apply marker_ok_get | apply marker_ok_refresh | apply marker_ok_complete].
Qed.

Lemma reachable_marker_ok (s : State) : reachable s -> marker_ok s.
Proof.
  intros (tbl & es & ->). induction es as [|e es IH] using rev_ind.
  - intros p; discriminate.
  - rewrite run_snoc. now apply marker_ok_step.
Qed.

Lemma in_flight_0_no_Pending (s : State) (p : nat) (b : bool) :
  in_flight s = 0%nat -> refreshes s !! p <> Some (Pending b).
Proof.
  unfold in_flight. intros H Hp.
  apply list_elem_of_lookup_2, list_elem_of_In in Hp.
  assert (Hin : In (Pending b)
                  (List.filter (fun r => match r with Pending _ => true | Settled _ => false end)
                               (refreshes s))) by (apply filter_In; auto).
  destruct (List.filter _ (refreshes s)); [contradiction|discriminate].
Qed.

Lemma idle_marker_None (s : State) :
  reachable s -> in_flight s = 0%nat -> refreshPromise (trafficCache s) = None.
Proof.
  intros Hr H0. apply reachable_marker_ok in Hr.
  destruct (refreshPromise (trafficCache s)) as [p|] eqn:Hp; [|reflexivity].
  apply Hr in Hp. now apply in_flight_0_no_Pending in Hp.
Qed.

(** ** Callers that arrive while the cache is stale *)

Lemma get_starts (now : Z) (s : State) :
  refreshPromise (trafficCache s) = None ->
  fresh (trafficCache s) now = false ->
  getCurrentTraffic now s =
  mkState (mkCache (data (trafficCache s)) (lastUpdated (trafficCache s))
                   (Some (length (refreshes s))))
          (readings s) (S (batches s)) (refreshes s ++ [Pending true])
          (calls s ++ [Awaiting (length (refreshes s))]).
Proof.
  intros Hp Hf. unfold getCurrentTraffic. now rewrite Hf, Hp.
Qed.

Lemma gets_join (ts : list Z) :
  forall (s : State) (p : nat),
    refreshPromise (trafficCache s) = Some p ->
    refreshes s !! p = Some (Pending true) ->
    List.Forall (fun t => fresh (trafficCache s) t = false) ts ->
    run s (map Get ts) =
    mkState (trafficCache s) (readings s) (batches s) (refreshes s)
            (calls s ++ repeat (Awaiting p) (length ts)).
Proof.
  induction ts as [|t ts IH]; intros s p Hp Hr Hf; simpl.
  - rewrite app_nil_r. now destruct s.
  - inversion Hf as [|? ? Ht Hts]; subst.
    assert (E : getCurrentTraffic t s = push_call (Awaiting p) s).
    { unfold getCurrentTraffic, await. now rewrite Ht, Hp, Hr. }
    rewrite E. rewrite (IH (push_call (Awaiting p) s) p Hp Hr Hts). simpl.
    now rewrite <- app_assoc.
Qed.

Lemma in_flight_snoc_Pending rs b :
  length (List.filter (fun r => match r with Pending _ => true | Settled _ => false end)
                      (rs ++ [Pending b])) =
  S (length (List.filter (fun r => match r with Pending _ => true | Settled _ => false end) rs)).
Proof. rewrite List.filter_app, length_app. simpl. lia. Qed.

Lemma in_flight_snoc_Settled rs x :
  length (List.filter (fun r => match r with Pending _ => true | Settled _ => false end)
                      (rs ++ [Settled x])) =
  length (List.filter (fun r => match r with Pending _ => true | Settled _ => false end) rs).
Proof. rewrite List.filter_app, length_app. simpl. lia. Qed.

Lemma insert_snoc {A} (l : list A) (x y : A) : <[length l := y]> (l ++ [x]) = l ++ [y].
Proof.
  replace (length l) with (length l + 0)%nat by lia. now rewrite insert_app_r.
Qed.

Lemma map_resume_repeat r result n :
  map (resume_call r result) (repeat (Awaiting r) n) = repeat (Done result) n.
Proof.
  induction n as [|n IH]; simpl; [reflexivity|]. now rewrite Nat.eqb_refl, IH.
Qed.

(** The state once a first caller has started a refresh and the others have
    joined it. *)
Lemma gets_on_stale_cache (s : State) (t0 : Z) (ts : list Z) :
  refreshPromise (trafficCache s) = None ->
  List.Forall (fun t => fresh (trafficCache s) t = false) (t0 :: ts) ->
  run s (map Get (t0 :: ts)) =
  mkState (mkCache (data (trafficCache s)) (lastUpdated (trafficCache s))
                   (Some (length (refreshes s))))
          (readings s) (S (batches s)) (refreshes s ++ [Pending true])
          (calls s ++ repeat (Awaiting (length (refreshes s))) (S (length ts))).
Proof.
  intros Hp Hf. inversion Hf as [|? ? Ht Hts]; subst. simpl map. unfold run; simpl fold_left.
  fold (run (getCurrentTraffic t0 s) (map Get ts)).
  rewrite (get_starts t0 s Hp Ht).
  rewrite (gets_join ts _ (length (refreshes s))); simpl.
  - now rewrite <- app_assoc.
  - reflexivity.
  - apply list_lookup_middle. reflexivity.
  - exact Hts.
Qed.

(** C1.  From a state the process can be in, with no refresh in flight, let
    any number of [getCurrentTraffic] calls arrive while the cache is stale
    (no data, or ten minutes old or more).  Then [fetchAllTravelTimes] is
    called exactly once, all the callers are suspended on that one refresh,
    and when it completes every one of them is done with the same result:
    the result of that refresh. *)
Theorem concurrent_gets_share_one_batch (s : State) (t0 : Z) (ts : list Z)
        (w : World) (faults : nat -> option string) (now : Date) :
  reachable s ->
  in_flight s = 0%nat ->
  List.Forall (fun t => fresh (trafficCache s) t = false) (t0 :: ts) ->
  let r := length (refreshes s) in
  let n := S (length ts) in
  let s1 := run s (map Get (t0 :: ts)) in
  let s2 := complete r w faults now s1 in
  let result := (refreshTrafficData_resume w faults now s1).2 in
  batches s1 = S (batches s) /\
  in_flight s1 = 1%nat /\
  calls s1 = calls s ++ repeat (Awaiting r) n /\
  batches s2 = S (batches s) /\
  in_flight s2 = 0%nat /\
  drop (length (calls s)) (calls s2) = repeat (Done result) n.
Proof.
  intros Hreach Hidle Hstale r n s1 s2 result.
  pose proof (idle_marker_None s Hreach Hidle) as Hp.
  pose proof (gets_on_stale_cache s t0 ts Hp Hstale) as E1.
  fold s1 r n in E1.
  assert (Hfl1 : in_flight s1 = 1%nat).
  { rewrite E1. unfold in_flight; simpl. rewrite in_flight_snoc_Pending.
    unfold in_flight in Hidle. now rewrite Hidle. }
  assert (Hlk : refreshes s1 !! r = Some (Pending true)).
  { rewrite E1; simpl. apply list_lookup_middle. reflexivity. }
  split; [now rewrite E1|]. split; [exact Hfl1|]. split; [now rewrite E1|].
  subst s2 result. unfold complete. rewrite Hlk.
  destruct (refreshTrafficData_resume w faults now s1) as [s' res] eqn:E. simpl.
  assert (Hs' : batches s' = batches s1 /\ refreshes s' = refreshes s1 /\ calls s' = calls s1).
  { destruct res as [results|m].
    - apply resume_Return in E. tauto.
    - apply resume_Throw in E. tauto. }
  destruct Hs' as (Hb & Hrs & Hcs). rewrite Hb, Hrs, Hcs.
  split; [now rewrite E1|]. split.
  - unfold in_flight; simpl. rewrite E1; simpl. subst r.
    rewrite insert_snoc, in_flight_snoc_Settled. exact Hidle.
  - rewrite E1; cbn [calls]. rewrite map_app, map_resume_repeat.
    apply drop_app_length'. now rewrite length_map.
Qed.

Lemma concurrent_gets_share_one_batch_witness :
  let s1 := run (init []) (map Get [0; 1; 2]) in
  let s2 := complete 0 world_one_failure no_faults monday_8am s1 in
  let result := (refreshTrafficData_resume world_one_failure no_faults monday_8am s1).2 in
  batches s1 = 1%nat /\
  in_flight s1 = 1%nat /\
  calls s1 = repeat (Awaiting 0) 3 /\
  batches s2 = 1%nat /\
  in_flight s2 = 0%nat /\
  drop 0 (calls s2) = repeat (Done result) 3.
Proof.
  apply (concurrent_gets_share_one_batch (init []) 0 [1; 2] world_one_failure no_faults monday_8am).
  - exists [], []. reflexivity.
  - reflexivity.
  - repeat constructor.
Defined.







(** C2.  The source at two inputs.  First: the fetch made at startup is in
    flight, the marker is not set, and a read that arrives then starts a
    second batch.  Second: a refresh started by a read is in flight, with its
    marker set, and [POST /api/refresh] starts a second batch all the same.
    In both cases two batches of fetches run at once. *)
Theorem refresh_triggers_bypass_marker :
  (let s0 := startup (Some "key") (init []) in
   let s1 := getCurrentTraffic 0 s0 in
   in_flight s0 = 1%nat /\ refreshPromise (trafficCache s0) = None /\
   batches s1 = 2%nat /\ in_flight s1 = 2%nat) /\
  (let s0 := getCurrentTraffic 0 (init []) in
   let s1 := api_refresh s0 in
   in_flight s0 = 1%nat /\ refreshPromise (trafficCache s0) = Some 0%nat /\
   batches s1 = 2%nat /\ in_flight s1 = 2%nat).
Proof. repeat split. Qed.

(** * Properties of db.js *)

Lemma key_eqb_eq (a b : Z * Z) : Db.key_eqb a b = true <-> a = b.
Proof.
  destruct a as [a1 a2], b as [b1 b2]. unfold Db.key_eqb; simpl.
  rewrite andb_true_iff, !Z.eqb_eq. split; [intros [-> ->]; reflexivity|intros [= -> ->]; auto].
Qed.

Lemma insert_key_In (k k' : Z * Z) (ks : list (Z * Z)) :
  In k (Db.insert_key k' ks) <-> k = k' \/ In k ks.
Proof.
  induction ks as [|a ks IH]; simpl; [intuition congruence|].
  destruct (Db.key_eqb k' a) eqn:E.
  - apply key_eqb_eq in E as ->. simpl. intuition congruence.
  - destruct (Db.key_ltb k' a); simpl; [intuition congruence|]. rewrite IH. intuition congruence.
Qed.

Lemma group_keys_In (k : Z * Z) (rows : Db.Table) :
  In k (Db.group_keys rows) <-> exists r, In r rows /\ Db.group_key r = k.
Proof.
  induction rows as [|r rows IH]; simpl.
  - split; [contradiction|intros (? & [] & _)].
  - rewrite insert_key_In, IH. split.
    + intros [->|(x & Hx & Hk)]; eauto.
    + intros (x & [<-|Hx] & Hk); eauto.
Qed.

Lemma filter_nil_iff {A} (p : A -> bool) (l : list A) :
  List.filter p l = [] <-> forall x, In x l -> p x = false.
Proof.
  induction l as [|a l IH]; simpl; [tauto|].
  destruct (p a) eqn:E.
  - split; [discriminate|]. intros H. specialize (H a (or_introl eq_refl)). congruence.
  - rewrite IH. split; [intros H x [<-|Hx]; auto|intros H x Hx; auto].
Qed.

Lemma filter_filter_andb {A} (p q : A -> bool) (l : list A) :
  List.filter p (List.filter q l) = List.filter (fun x => q x && p x) l.
Proof.
  induction l as [|a l IH]; simpl; [reflexivity|].
  destruct (q a); simpl; [destruct (p a)|]; now rewrite IH.
Qed.

Lemma find_group_row (f g : Z * Z -> Z) (keys : list (Z * Z)) (k0 : Z * Z) :
  List.find (fun r => (Db.day_of_week r =? k0.1) && (Db.hour r =? k0.2))
            (map (fun k => Db.mkRow k.1 k.2 (f k) (g k)) keys) =
  if existsb (fun k => Db.key_eqb k k0) keys
  then Some (Db.mkRow k0.1 k0.2 (f k0) (g k0)) else None.
Proof.
  induction keys as [|k keys IH]; simpl; [reflexivity|].
  change ((k.1 =? k0.1) && (k.2 =? k0.2)) with (Db.key_eqb k k0).
  destruct (Db.key_eqb k k0) eqn:E; simpl; [|exact IH].
  apply key_eqb_eq in E as ->. reflexivity.
Qed.

(** What [rows.find] gives for a day and an hour: the aggregate of the
    readings of that crossing, day and hour, when there are any. *)
Lemma find_heatmap_row (readings : Db.Table) (crossingId : string) (d h : Z) :
  let bucket :=
    List.filter (fun r => String.eqb (Db.crossing_id r) crossingId
                          && ((Db.strftime_w (Db.recorded_at r) =? d)
                              && (Db.strftime_H (Db.recorded_at r) =? h))) readings in
  List.find (fun r => (Db.day_of_week r =? d) && (Db.hour r =? h))
            (Db.getHeatmapData readings crossingId) =
  match bucket with
  | [] => None
  | _ => Some (Db.mkRow d h (Db.ROUND_AVG bucket) (Db.COUNT bucket))
  end.
Proof.
  intros bucket. unfold Db.getHeatmapData.
  set (sel := List.filter (fun r => String.eqb (Db.crossing_id r) crossingId) readings).
  pose proof (find_group_row
                (fun k => Db.ROUND_AVG (List.filter (Db.in_group k) sel))
                (fun k => Db.COUNT (List.filter (Db.in_group k) sel))
                (Db.group_keys sel) (d, h)) as H.
  cbn [fst snd] in H. rewrite H. clear H.
  assert (Hb : List.filter (Db.in_group (d, h)) sel = bucket).
  { unfold sel, bucket. rewrite filter_filter_andb. reflexivity. }
  clearbody bucket. subst bucket.
  destruct (existsb (fun k => Db.key_eqb k (d, h)) (Db.group_keys sel)) eqn:Ex.
  - apply existsb_exists in Ex as (k & Hk & Hkk). apply key_eqb_eq in Hkk as ->.
    apply group_keys_In in Hk as (r & Hr & Hg).
    destruct (List.filter (Db.in_group (d, h)) sel) as [|b bs] eqn:Eb; [|reflexivity].
    pose proof (proj1 (filter_nil_iff _ _) Eb r Hr) as Er.
    unfold Db.in_group in Er. rewrite Hg in Er.
    assert (Db.key_eqb (d, h) (d, h) = true) by now apply key_eqb_eq.
    congruence.
  - destruct (List.filter (Db.in_group (d, h)) sel) as [|b bs] eqn:Eb; [reflexivity|].
    assert (Hin : In b (List.filter (Db.in_group (d, h)) sel)) by (rewrite Eb; now left).
    apply filter_In in Hin as (Hbs & Hg).
    assert (Hk : In (d, h) (Db.group_keys sel)).
    { apply group_keys_In. exists b. split; [exact Hbs|]. now apply key_eqb_eq. }
    assert (existsb (fun k => Db.key_eqb k (d, h)) (Db.group_keys sel) = true).
    { apply existsb_exists. exists (d, h). split; [exact Hk|now apply key_eqb_eq]. }
    congruence.
Qed.

(** [ROUND(AVG(...))] is within one half of the exact mean. *)
Lemma ROUND_AVG_nearest (rows : Db.Table) :
  rows <> [] ->
  2 * Z.abs (Db.SUM rows - Db.COUNT rows * Db.ROUND_AVG rows) <= Db.COUNT rows.
Proof.
  intros Hne. unfold Db.ROUND_AVG.
  assert (Hn : 0 < Db.COUNT rows).
  { unfold Db.COUNT. destruct rows; [contradiction|simpl; lia]. }
  set (n := Db.COUNT rows) in *. set (s := Db.SUM rows).
  destruct (0 <=? s) eqn:Es.
  - pose proof (Z.div_mod (2 * s + n) (2 * n) ltac:(lia)) as Hdm.
    pose proof (Z.mod_pos_bound (2 * s + n) (2 * n) ltac:(lia)) as Hb.
    set (q := (2 * s + n) / (2 * n)) in *. nia.
  - pose proof (Z.div_mod (2 * - s + n) (2 * n) ltac:(lia)) as Hdm.
    pose proof (Z.mod_pos_bound (2 * - s + n) (2 * n) ltac:(lia)) as Hb.
    set (q := (2 * - s + n) / (2 * n)) in *. nia.
Qed.

Lemma heatmap_lookup (readings : Db.Table) (crossingId : string) (d hr : nat) :
  (d < 7)%nat -> (hr < 24)%nat ->
  Db.heatmap (Db.getHistoricalData readings crossingId) !! (24 * d + hr)%nat =
  Some (Db.cell (Db.getHeatmapData readings crossingId)
                (Z.of_nat ((d + 1) mod 7)) d (Z.of_nat hr)).
Proof.
  intros Hd Hh. unfold Db.getHistoricalData; cbn [Db.heatmap].
  generalize (Db.getHeatmapData readings crossingId) as rows. intros rows.
  do 7 (destruct d as [|d];
        [do 24 (destruct hr as [|hr]; [reflexivity|]); exfalso; lia|]).
  exfalso; lia.
Qed.

(** C7.  The historical aggregate of a crossing has 7 x 24 = 168 buckets,
    whatever the stored readings.  The bucket of display day [d] (0 is
    Monday, 6 is Sunday) and hour [hr] sits at position [24 * d + hr]; its
    sample count is the number of readings of that crossing recorded on that
    day of the week at that hour; with no such reading its mean is null, and
    otherwise its mean is an integer within one half of the exact average of
    their wait-times. *)
Theorem heatmap_buckets (readings : Db.Table) (crossingId : string) (d hr : nat) :
  (d < 7)%nat ->
  (hr < 24)%nat ->
  let h := Db.heatmap (Db.getHistoricalData readings crossingId) in
  let bucket :=
    List.filter (fun r => String.eqb (Db.crossing_id r) crossingId
                          && ((Db.strftime_w (Db.recorded_at r) =? Z.of_nat ((d + 1) mod 7))
                              && (Db.strftime_H (Db.recorded_at r) =? Z.of_nat hr))) readings in
  length h = 168%nat /\
  exists c,
    h !! (24 * d + hr)%nat = Some c /\
    Db.dayIndex c = d /\
    Some (Db.day c) = ["Mon"; "Tue"; "Wed"; "Thu"; "Fri"; "Sat"; "Sun"] !! d /\
    Db.cell_hour c = Z.of_nat hr /\
    Db.sampleCount c = Z.of_nat (length bucket) /\
    match bucket with
    | [] => Db.avgTime c = None
    | _ => exists m, Db.avgTime c = Some m /\
                     2 * Z.abs (Db.SUM bucket - Z.of_nat (length bucket) * m)
                     <= Z.of_nat (length bucket)
    end.
Proof.
  intros Hd Hh h bucket. split; [reflexivity|].
  eexists. split; [apply heatmap_lookup; assumption|].
  unfold Db.cell. cbn [Db.dayIndex Db.day Db.cell_hour Db.sampleCount Db.avgTime].
  rewrite find_heatmap_row. fold bucket.
  split; [reflexivity|]. split.
  { do 7 (destruct d as [|d]; [reflexivity|]). exfalso; lia. }
  split; [reflexivity|].
  destruct bucket as [|b bs] eqn:Eb; [split; reflexivity|].
  split; [reflexivity|].
  eexists. split; [reflexivity|]. cbn [Db.avg_time].
  apply (ROUND_AVG_nearest (b :: bs)). discriminate.
Qed.

Lemma heatmap_buckets_witness :
  let readings :=
    [ Db.mkReading "gwb-into" 10 (Db.mkLocal 2024 1 1 8 0 0);
      Db.mkReading "gwb-out" 45 (Db.mkLocal 2024 1 1 8 10 0);
      Db.mkReading "gwb-into" 13 (Db.mkLocal 2024 1 8 8 30 0) ] in
  Db.heatmap (Db.getHistoricalData readings "gwb-into") !! 8%nat =
    Some (Db.mkCell "Mon" 0 8 (Some 12) 2 "8am") /\
  length (Db.heatmap (Db.getHistoricalData readings "gwb-into")) = 168%nat.
Proof.
  intros readings.
  destruct (heatmap_buckets readings "gwb-into" 0 8) as (Hlen & c & Hc & _); [lia | lia |].
  split; [reflexivity | exact Hlen].
Defined.

(** * Properties of the routes *)

Lemma crossing_id_nonempty (c : Crossing) : In c CROSSINGS -> String.eqb (App.id c) "" = false.
Proof. simpl. intros H. repeat destruct H as [<-|H]; try reflexivity. contradiction. Qed.

Lemma gate_false (v : Value) :
  falsy v || negb (is_string v) = false <-> exists s, v = Str s /\ String.eqb s "" = false.
Proof.
  split.
  - destruct v as [| |b|n|s|o]; simpl; try (destruct b); try (rewrite orb_true_r);
      try discriminate.
    rewrite orb_false_r. eauto.
  - intros (s & -> & Hs). simpl. now rewrite Hs.
Qed.

Lemma find_crossing (v : Value) :
  match List.find (fun c => strict_eq (App.id c) v) CROSSINGS with
  | Some c => In c CROSSINGS /\ v = Str (App.id c)
  | None => forall c, In c CROSSINGS -> v <> Str (App.id c)
  end.
Proof.
  destruct (List.find _ CROSSINGS) as [c|] eqn:E.
  - apply find_some in E as [Hin Heq]. split; [exact Hin|].
    destruct v; try discriminate. apply String.eqb_eq in Heq. now subst.
  - intros c Hc ->. apply (find_none _ _ E) in Hc. simpl in Hc.
    now rewrite String.eqb_refl in Hc.
Qed.

(** What the handler answers, once the id is known to be one of the six. *)
Lemma api_readings_known (S2N : string -> Num) fault now (c : Crossing) (wt : Value)
      (tbl : Db.Table) :
  In c CROSSINGS ->
  api_readings S2N fault now (mkBody (Str (App.id c)) wt) tbl =
  match wt with
  | Undefined | Null => Return (BadRequest "waitTime is required", tbl)
  | _ =>
      match integer_value (ToNumber S2N wt) with
      | Some n =>
          if (n <? 0) || (n >? 300) then
            Return (BadRequest "waitTime must be an integer between 0 and 300 minutes", tbl)
          else
            readings' ← Db.addReading fault tbl (App.id c) n now;
            Return (Success, readings')
      | None =>
          Return (BadRequest "waitTime must be an integer between 0 and 300 minutes", tbl)
      end
  end.
Proof.
  intros Hc. unfold api_readings; cbn [body_crossingId body_waitTime].
  replace (falsy (Str (App.id c)) || negb (is_string (Str (App.id c)))) with false
    by (symmetry; apply gate_false; eexists; split; [reflexivity|now apply crossing_id_nonempty]).
  pose proof (find_crossing (Str (App.id c))) as Hf.
  destruct (List.find _ CROSSINGS) as [c'|].
  - destruct Hf as [_ [= ->]]. reflexivity.
  - exfalso. now apply (Hf c Hc).
Qed.

Lemma api_readings_unknown (S2N : string -> Num) fault now (body : Body) (tbl : Db.Table) :
  ~ known_id (body_crossingId body) ->
  rejected (api_readings S2N fault now body tbl).
Proof.
  intros Hk. unfold api_readings.
  destruct (falsy (body_crossingId body) || negb (is_string (body_crossingId body)));
    [now eexists _, _|].
  pose proof (find_crossing (body_crossingId body)) as Hf.
  destruct (List.find _ CROSSINGS) as [c|]; [|now eexists _, _].
  exfalso. apply Hk. exists c. exact Hf.
Qed.

Lemma not_rejected_stored fault (tbl : Db.Table) (cid : string) (n : Z) now :
  ~ rejected (readings' ← Db.addReading fault tbl cid n now; Return (Success, readings')).
Proof.
  unfold Db.addReading. intros (e & t & H). destruct fault; discriminate H.
Qed.

Lemma range_test (n : Z) : (n <? 0) || (n >? 300) = false <-> 0 <= n <= 300.
Proof. rewrite orb_false_iff, Z.ltb_ge, Z.gtb_ltb, Z.ltb_ge. tauto. Qed.

Ltac reject_now := eexists _, _; reflexivity.

(** The wait-time part of the validation, for a known crossing. *)
Lemma api_readings_wait_time (S2N : string -> Num) fault now (c : Crossing) (wt : Value)
      (tbl : Db.Table) :
  In c CROSSINGS ->
  (rejected (api_readings S2N fault now (mkBody (Str (App.id c)) wt) tbl) <->
   ~ exists z, coerces_in_range S2N wt z) /\
  (forall z, coerces_in_range S2N wt z ->
             api_readings S2N None now (mkBody (Str (App.id c)) wt) tbl =
             Return (Success, tbl ++ [reading_of (App.id c) z now])).
Proof.
  intros Hc. rewrite !(api_readings_known S2N _ now c wt tbl Hc).
  unfold coerces_in_range.
  destruct wt as [| |b|n|s|o];
    try (split; [split; [intros _ (z & H1 & H2 & _); congruence
                        |intros _; reject_now]
                |intros z (H1 & H2 & _); congruence]);
    (destruct (integer_value (ToNumber S2N _)) as [k|] eqn:Ek;
     [destruct ((k <? 0) || (k >? 300)) eqn:Er;
      [ split; [split; [intros _ (z & _ & _ & [= <-] & Hz);
                        apply range_test in Hz; congruence
                       |intros _; reject_now]
               |intros z (_ & _ & [= <-] & Hz); apply range_test in Hz; congruence]
      | split; [split; [intros H; now apply not_rejected_stored in H
                       |intros H; exfalso; apply H; exists k;
                        apply range_test in Er; repeat split; (discriminate || tauto)]
               |intros z (_ & _ & [= <-] & _); reflexivity] ]
     | split; [split; [intros _ (z & _ & _ & [=] & _)|intros _; reject_now]
              |intros z (_ & _ & [=] & _)] ]).
Qed.

(** The test that the handler makes: a submitted reading is refused with
    status 400 exactly when its crossing id is not one of the six known ids,
    or its wait-time is [undefined] or [null], or [Number(waitTime)] is not
    an integer of [0, 300]; otherwise, SQLite permitting, a reading is stored
    with the number that [Number] gave.  The numbers -1 and 301 are refused; 0
    and 300 are accepted and stored. *)
Lemma api_readings_validation (S2N : string -> Num) (fault : option string) (now : Date)
        (body : Body) (tbl : Db.Table) :
  (rejected (api_readings S2N fault now body tbl) <->
   ~ (known_id (body_crossingId body) /\
      exists z, coerces_in_range S2N (body_waitTime body) z)) /\
  (forall c z,
      In c CROSSINGS -> body_crossingId body = Str (App.id c) ->
      coerces_in_range S2N (body_waitTime body) z ->
      api_readings S2N None now body tbl =
      Return (Success, tbl ++ [reading_of (App.id c) z now])) /\
  (forall c,
      In c CROSSINGS ->
      rejected (api_readings S2N fault now
                  (mkBody (Str (App.id c)) (Number (Finite (inject_Z (-1))))) tbl) /\
      rejected (api_readings S2N fault now
                  (mkBody (Str (App.id c)) (Number (Finite (inject_Z 301)))) tbl) /\
      api_readings S2N None now (mkBody (Str (App.id c)) (Number (Finite (inject_Z 0)))) tbl =
        Return (Success, tbl ++ [reading_of (App.id c) 0 now]) /\
      api_readings S2N None now (mkBody (Str (App.id c)) (Number (Finite (inject_Z 300)))) tbl =
        Return (Success, tbl ++ [reading_of (App.id c) 300 now])).
Proof.
  destruct body as [cid wt]; cbn [body_crossingId body_waitTime]. split; [|split].
  - pose proof (find_crossing cid) as Hf.
    destruct (List.find _ CROSSINGS) as [c|].
    + destruct Hf as [Hc ->].
      destruct (api_readings_wait_time S2N fault now c wt tbl Hc) as [[H1 H2] _]. split.
      * intros H [_ Hz]. now apply H1.
      * intros H. apply H2. intros Hz. apply H. split; [|exact Hz]. now exists c.
    + assert (Hk : ~ known_id cid) by (intros (c & Hc & ->); now apply (Hf c)).
      split; [tauto|]. intros _. now apply api_readings_unknown.
  - intros c z Hc -> Hz.
    now apply (api_readings_wait_time S2N fault now c wt tbl Hc).
  - intros c Hc. rewrite !(api_readings_known S2N _ now c _ tbl Hc).
    repeat split; reject_now.
Qed.

(** C8.  The source at the body [{crossingId: 'gwb-into', waitTime: true}]:
    the wait-time is not an integer of [0, 300], so that the reading is to be
    refused, but the handler tests [Number(waitTime)], which is 1, and stores
    a reading of one minute. *)
Lemma coerced_wait_time_accepted :
  let body := mkBody (Str "gwb-into") (Bool true) in
  let answer := api_readings (fun _ => NaN) None monday_8am body [] in
  answer = Return (Success, [reading_of "gwb-into" 1 monday_8am]) /\
  ~ integer_in_range (body_waitTime body) /\
  ~ (rejected answer <->
     ~ (known_id (body_crossingId body) /\ integer_in_range (body_waitTime body))).
Proof.
  intros body answer.
  assert (Hn : ~ integer_in_range (body_waitTime body)).
  { intros (z & q & _ & H & _). discriminate H. }
  split; [reflexivity|]. split; [exact Hn|].
  intros [_ H]. destruct H as (e & t & H); [tauto|discriminate H].
Qed.


Lemma map_imap_id {A B} (g : B -> A) (l : list A) :
  forall f : nat -> A -> B, (forall i x, g (f i x) = x) -> map g (imap f l) = l.
Proof.
  induction l as [|a l IH]; intros f Hf; simpl; [reflexivity|].
  rewrite Hf. f_equal. apply IH. intros i x. apply Hf.
Qed.







(** C10.  When the adapter is not configured, any number of
    [GET /api/crossings] requests, and the startup and the timer, leave the
    store and the cache as they were; hence the history of every crossing is
    what it was, and no placeholder is ever part of it. *)
Theorem unconfigured_requests_write_nothing (API_KEY : option string)
        (requests : list ((nat -> Q) * (nat -> Date) * Z)) (s : State) :
  isConfigured API_KEY = false ->
  let s' := serve_crossings API_KEY requests (timer_tick API_KEY (startup API_KEY s)) in
  readings s' = readings s /\
  trafficCache s' = trafficCache s /\
  batches s' = batches s /\
  forall crossingId, api_history crossingId s' = api_history crossingId s.
Proof.
  intros Hk s'.
  assert (E : s' = s).
  { subst s'. unfold startup, timer_tick. rewrite Hk.
    induction requests as [|[[random clock] now] rs IH]; [reflexivity|].
    unfold serve_crossings in *. simpl. unfold api_crossings at 2. rewrite Hk. exact IH. }
  rewrite E. repeat split.
Qed.

Lemma unconfigured_requests_write_nothing_witness :
  let requests := [((fun _ : nat => 1 # 2)%Q, fun _ : nat => monday_8am, 0);
                   ((fun _ : nat => 9 # 10)%Q, fun _ : nat => monday_8am, 700000)] in
  let s' := serve_crossings (Some "") requests (timer_tick (Some "") (startup (Some "") (init []))) in
  readings s' = [] /\
  trafficCache s' = mkCache None None None /\
  batches s' = 0%nat /\
  forall crossingId, api_history crossingId s' = api_history crossingId (init []).
Proof.
  intros requests.
  apply (unconfigured_requests_write_nothing (Some "") requests (init [])).
  reflexivity.
Defined.

(** * Further properties of traffic.js *)

Lemma totalDurationSeconds_spec (ls : list Leg) :
  forall acc, totalDurationSeconds ls acc = acc + total_seconds ls.
Proof.
  induction ls as [|leg ls IH]; intros acc; simpl; [lia|].
  rewrite IH. unfold leg_seconds. lia.
Qed.

Lemma Math_round_div_60 (n m : Z) :
  Math_round_div n 60 = m <-> 60 * m - 30 <= n < 60 * m + 30.
Proof.
  unfold Math_round_div. change (2 * 60) with 120.
  pose proof (Z.div_mod (2 * n + 60) 120 ltac:(lia)) as Hdm.
  pose proof (Z.mod_pos_bound (2 * n + 60) 120 ltac:(lia)) as Hb.
  split; [intros <-; lia|intros H].
  symmetry. apply (Z.div_unique (2 * n + 60) 120 m (2 * n + 60 - 120 * m)); lia.
Qed.

(** X1.  For each of the six crossings, [fetchTravelTime] returns exactly
    when the request and its parsing succeed, the status is OK, and the first
    route has at least one leg.  The value then carries the crossing's id, no
    error, and the wait-time that is the nearest minute to the sum over the
    legs of that first route of the duration in traffic (the plain duration
    for a leg without it), a half going up. *)
Theorem fetchTravelTime_success (w : World) (id : string) (t : TravelTime) :
  In id (keys ROUTES) ->
  (fetchTravelTime w id = Return t <->
   exists route data rd others ls m,
     get_route ROUTES id = Some route /\
     fetch_json w route = Return data /\
     Traffic.status data = "OK" /\
     routes data = Some (rd :: others) /\
     legs rd = Some ls /\ ls <> [] /\
     60 * m - 30 <= total_seconds ls < 60 * m + 30 /\
     t = mkTravelTime id (Some m) None (new_Date w id)).
Proof.
  intros _. unfold fetchTravelTime. split.
  - destruct (get_route ROUTES id) as [route|]; [|discriminate].
    destruct (fetch_json w route) as [data|] eqn:Ef; simpl; [|discriminate].
    destruct (String.eqb (Traffic.status data) "OK") eqn:Es; simpl; [|discriminate].
    destruct (routes data) as [[|rd others]|] eqn:Er; try discriminate.
    destruct (legs rd) as [[|leg ls]|] eqn:El; try discriminate.
    intros [= <-]. apply String.eqb_eq in Es.
    exists route, data, rd, others, (leg :: ls), (Math_round_div (total_seconds (leg :: ls)) 60).
    repeat split; try assumption; try discriminate; try reflexivity.
    + now apply Math_round_div_60.
    + now apply Math_round_div_60.
    + now rewrite totalDurationSeconds_spec.
  - intros (route & data & rd & others & ls & m & -> & -> & Hs & Hr & Hl & Hne & Hm & ->).
    simpl. rewrite Hs, Hr, Hl. simpl. destruct ls as [|leg ls]; [contradiction|].
    rewrite totalDurationSeconds_spec, Z.add_0_l.
    apply Math_round_div_60 in Hm. now rewrite Hm.
Qed.

Lemma fetchTravelTime_success_witness :
  fetchTravelTime world_one_failure "gwb-out"
    = Return (mkTravelTime "gwb-out" (Some 12) None monday_8am) <->
  exists route data rd others ls m,
    get_route ROUTES "gwb-out" = Some route /\
    fetch_json world_one_failure route = Return data /\
    Traffic.status data = "OK" /\
    routes data = Some (rd :: others) /\
    legs rd = Some ls /\ ls <> [] /\
    60 * m - 30 <= total_seconds ls < 60 * m + 30 /\
    mkTravelTime "gwb-out" (Some 12) None monday_8am
      = mkTravelTime "gwb-out" (Some m) None (new_Date world_one_failure "gwb-out").
Proof.
  apply (fetchTravelTime_success world_one_failure "gwb-out"
           (mkTravelTime "gwb-out" (Some 12) None monday_8am)).
  simpl. right. left. reflexivity.
Defined.

Lemma total_seconds_nonneg (ls : list Leg) :
  (forall leg, In leg ls -> 0 <= leg_seconds leg) -> 0 <= total_seconds ls.
Proof.
  induction ls as [|leg ls IH]; intros H; simpl; [lia|].
  assert (0 <= leg_seconds leg) by (apply H; now left).
  assert (0 <= total_seconds ls) by (apply IH; intros l Hl; apply H; now right).
  lia.
Qed.

Lemma entry_of_nonneg (w : World) (id : string) (n : Z) :
  nonneg_world w -> waitTime (entry_of w id) = Some n -> 0 <= n.
Proof.
  intros Hw. unfold entry_of, fetchTravelTime.
  destruct (get_route ROUTES id) as [route|]; [|discriminate].
  destruct (fetch_json w route) as [data|] eqn:Ef; simpl; [|discriminate].
  destruct (negb (String.eqb (Traffic.status data) "OK")); [discriminate|].
  destruct (routes data) as [[|rd others]|] eqn:Er; try discriminate.
  destruct (legs rd) as [[|leg ls]|] eqn:El; try discriminate.
  cbn [waitTime]. intros [= <-]. rewrite totalDurationSeconds_spec, Z.add_0_l.
  assert (H : 0 <= total_seconds (leg :: ls)).
  { apply total_seconds_nonneg. intros l Hl. exact (Hw _ _ _ _ _ _ Ef Er El Hl). }
  simpl in H. unfold leg_seconds in H.
  unfold Math_round_div. apply Z.div_pos; lia.
Qed.

(** * Further properties of the refresh *)

(** The rows that the loop of [refreshTrafficData] writes are a prefix of
    the readings of the results, whether it ends or throws. *)
Lemma store_results_prefix faults (results : list TravelTime) :
  forall k (tbl tbl' : Db.Table) c,
    store_results faults k results tbl = (tbl', c) ->
    exists n, tbl' = tbl ++ take n (persisted results).
Proof.
  induction results as [|r rs IH]; intros k tbl tbl' c; simpl.
  - intros [= <- _]. exists 0%nat. now rewrite app_nil_r.
  - unfold persisted; simpl. fold (persisted rs).
    destruct (waitTime r) as [wt|]; simpl.
    + unfold Db.addReading. destruct (faults k).
      * intros [= <- _]. exists 0%nat. now rewrite app_nil_r.
      * intros H. apply IH in H as (n & ->). exists (S n). simpl.
        now rewrite <- app_assoc.
    + apply IH.
Qed.

Lemma resume_readings w faults now (s : State) :
  exists n,
    readings (refreshTrafficData_resume w faults now s).1 =
    readings s ++ take n (persisted (map (entry_of w) (keys ROUTES))).
Proof.
  unfold refreshTrafficData_resume. rewrite fetchAllTravelTimes_spec.
  destruct (store_results _ _ _ _) as [tbl' c] eqn:E.
  apply store_results_prefix in E as (n & ->). exists n. now destruct c as [[]|].
Qed.

Lemma complete_readings r w faults now (s : State) :
  exists n,
    readings (complete r w faults now s) =
    readings s ++ take n (persisted (map (entry_of w) (keys ROUTES))).
Proof.
  unfold complete. destruct (refreshes s !! r) as [[b|]|];
    try (exists 0%nat; now rewrite app_nil_r).
  destruct (resume_readings w faults now s) as (n & Hn). exists n.
  destruct (refreshTrafficData_resume w faults now s) as [s1 res].
  simpl in Hn. destruct b; simpl; exact Hn.
Qed.

Lemma persisted_nonneg (w : World) (ids : list string) :
  nonneg_world w ->
  List.Forall (fun r => 0 <= Db.wait_time r) (persisted (map (entry_of w) ids)).
Proof.
  intros Hw. induction ids as [|id ids IH]; [constructor|].
  unfold persisted; simpl. fold (persisted (map (entry_of w) ids)).
  destruct (waitTime (entry_of w id)) as [n|] eqn:E; simpl; [|exact IH].
  constructor; [|exact IH]. simpl. now apply (entry_of_nonneg w id).
Qed.

(** X2.  When the durations that the API answers are not negative, the
    completion of a refresh, successful or not, stores only readings whose
    wait-time is not negative: a store that holds none keeps holding none. *)
Theorem refresh_stores_nonnegative_wait_times (r : nat) (w : World)
        (faults : nat -> option string) (now : Date) (s : State) :
  nonneg_world w ->
  List.Forall (fun x => 0 <= Db.wait_time x) (readings s) ->
  List.Forall (fun x => 0 <= Db.wait_time x) (readings (complete r w faults now s)).
Proof.
  intros Hw Hs. destruct (complete_readings r w faults now s) as (n & ->).
  apply List.Forall_app. split; [exact Hs|].
  apply List.Forall_forall. intros x Hx.
  pose proof (persisted_nonneg w (keys ROUTES) Hw) as Hp.
  rewrite List.Forall_forall in Hp. apply Hp.
  apply list_elem_of_In, elem_of_take in Hx as (i & Hi & _).
  apply list_elem_of_In. now apply list_elem_of_lookup_2 in Hi.
Qed.

Lemma nonneg_world_all_fine : nonneg_world world_all_fine.
Proof.
  intros route data rd others ls leg [= <-] [= <- _] [= <-] Hin.
  simpl in Hin. destruct Hin as [<-|[<-|[]]]; unfold leg_seconds; simpl; lia.
Defined.

Lemma refresh_stores_nonnegative_wait_times_witness :
  List.Forall (fun x => 0 <= Db.wait_time x)
              (readings (complete 0 world_all_fine no_faults monday_8am
                                  (step (init []) Refresh))).
Proof.
  apply (refresh_stores_nonnegative_wait_times 0 world_all_fine no_faults monday_8am
           (step (init []) Refresh)).
  - exact nonneg_world_all_fine.
  - constructor.
Defined.

Lemma step_readings (s : State) (e : Event) :
  exists l, readings (step s e) = readings s ++ l.
Proof.
  destruct e as [t| |r w faults now]; simpl.
  - exists []. rewrite app_nil_r. unfold getCurrentTraffic.
    destruct (if fresh (trafficCache s) t then data (trafficCache s) else None);
      [|destruct (refreshPromise (trafficCache s))]; reflexivity.
  - exists []. now rewrite app_nil_r.
  - destruct (complete_readings r w faults now s) as (n & Hn). eauto.
Qed.

(** X3.  The store only grows: whatever events happen, the readings that
    were in the store are still there afterwards, unchanged and in the same
    order, before anything that was added. *)
Theorem store_is_append_only (s : State) (es : list Event) :
  exists added, readings (run s es) = readings s ++ added.
Proof.
  unfold run. revert s. induction es as [|e es IH]; intros s; simpl.
  - exists []. now rewrite app_nil_r.
  - destruct (step_readings s e) as (l1 & H1). destruct (IH (step s e)) as (l2 & H2).
    exists (l1 ++ l2). now rewrite H2, H1, app_assoc.
Qed.

(** The state left by a completion that succeeds. *)
Lemma complete_Return (r : nat) (b : bool) w faults now (s s1 : State) results :
  refreshes s !! r = Some (Pending b) ->
  refreshTrafficData_resume w faults now s = (s1, Return results) ->
  complete r w faults now s =
  mkState (mkCache (Some results) (Some now) None)
          (readings s ++ persisted results) (batches s)
          (<[r := Settled (Return results)]> (refreshes s))
          (map (resume_call r (Return results)) (calls s)).
Proof.
  intros Hr E. unfold complete. rewrite Hr, E.
  apply resume_Return in E as (_ & Hc & Hd & Hb & Hrs & Hcs).
  destruct b; simpl; rewrite ?Hc, Hd, Hb, Hrs, Hcs; reflexivity.
Qed.

(** X4.  Once a refresh has succeeded, with [lastUpdated] set to [now], a
    call of [getCurrentTraffic] is served from the cache, with the results of
    that refresh and no new batch, as long as less than 600000 ms have passed
    since [now]; from 600000 ms on it starts a new batch and is suspended on
    it, whatever else is in flight. *)
Theorem cache_expires_at_ttl (r : nat) (b : bool) (w : World) (faults : nat -> option string)
        (now : Date) (s : State) (results : list TravelTime) (t : Z) :
  refreshes s !! r = Some (Pending b) ->
  (refreshTrafficData_resume w faults now s).2 = Return results ->
  let s' := complete r w faults now s in
  (t - getTime now < 600000 ->
   getCurrentTraffic t s' = push_call (Done (Return results)) s') /\
  (600000 <= t - getTime now ->
   batches (getCurrentTraffic t s') = S (batches s') /\
   last (calls (getCurrentTraffic t s')) = Some (Awaiting (length (refreshes s')))).
Proof.
  intros Hr Hres s'.
  destruct (refreshTrafficData_resume w faults now s) as [s1 res] eqn:E.
  simpl in Hres. subst res.
  pose proof (complete_Return r b w faults now s s1 results Hr E) as Hs'.
  fold s' in Hs'. unfold getCurrentTraffic, fresh, cacheAge. rewrite Hs'.
  cbn [trafficCache data lastUpdated refreshPromise]. change CACHE_TTL with 600000. split.
  - intros Ht. apply Z.ltb_lt in Ht. now rewrite Ht.
  - intros Ht. apply Z.ltb_ge in Ht. rewrite Ht. cbn [batches calls push_call
      set_refreshPromise refreshTrafficData_start refreshes].
    split; [reflexivity|]. now rewrite last_snoc.
Qed.

Lemma cache_expires_at_ttl_witness :
  let s := step (init []) Refresh in
  let s' := complete 0 world_all_fine no_faults monday_8am s in
  (1704114599999 - getTime monday_8am < 600000 ->
   getCurrentTraffic 1704114599999 s' =
   push_call (Done (Return (map (entry_of world_all_fine) (keys ROUTES)))) s') /\
  (600000 <= 1704114599999 - getTime monday_8am ->
   batches (getCurrentTraffic 1704114599999 s') = S (batches s') /\
   last (calls (getCurrentTraffic 1704114599999 s')) = Some (Awaiting (length (refreshes s')))).
Proof.
  apply (cache_expires_at_ttl 0 false world_all_fine no_faults monday_8am
           (step (init []) Refresh) (map (entry_of world_all_fine) (keys ROUTES))
           1704114599999).
  - reflexivity.
  - reflexivity.
Defined.

Lemma getCount_app (t1 t2 : Db.Table) (k : string) :
  Db.getCount (t1 ++ t2) k = Db.getCount t1 k + Db.getCount t2 k.
Proof. unfold Db.getCount, Db.COUNT. rewrite List.filter_app, length_app. lia. Qed.

Lemma getCount_persisted (w : World) (c : Crossing) :
  In c CROSSINGS ->
  Db.getCount (persisted (map (entry_of w) (keys ROUTES))) (App.id c) =
  match fetchTravelTime w (App.id c) with
  | Return _ => 1
  | Throw _ => 0
  end.
Proof.
  intros Hc. unfold Db.getCount.
  rewrite (filter_persisted_entries w (App.id c) _ keys_ROUTES_NoDup).
  replace (existsb (String.eqb (App.id c)) (keys ROUTES)) with true
    by (simpl in Hc; repeat destruct Hc as [<-|Hc]; try reflexivity; contradiction).
  rewrite persisted_entry.
  destruct (fetchTravelTime w (App.id c)) as [t|m] eqn:E; [|reflexivity].
  apply fetchTravelTime_Return in E as (_ & (n & ->) & _). reflexivity.
Qed.

(** X5.  After a refresh that succeeds, [GET /api/stats] reports for each
    crossing one reading more than before if its fetch succeeded and as many
    as before if it failed; and its [cacheAge], asked at the very time of the
    refresh, is 0. *)
Theorem stats_after_refresh (API_KEY : option string) (w : World)
        (faults : nat -> option string) (now : Date) (t : Z) (s s' : State)
        (results : list TravelTime) :
  refreshTrafficData_resume w faults now s = (s', Return results) ->
  map readingCount (stats_crossings (api_stats API_KEY t s')) =
  map (fun c => Db.getCount (readings s) (App.id c)
                + match fetchTravelTime w (App.id c) with
                  | Return _ => 1
                  | Throw _ => 0
                  end) CROSSINGS /\
  map stats_id (stats_crossings (api_stats API_KEY t s')) = map App.id CROSSINGS /\
  stats_cacheAge (api_stats API_KEY (getTime now) s') = Some 0.
Proof.
  intros H. apply resume_Return in H as (-> & Hc & Hr & _).
  unfold api_stats. cbn [stats_crossings stats_cacheAge]. rewrite Hc, Hr. split; [|split].
  - rewrite map_map. cbn [readingCount]. apply map_ext_in. intros c Hin.
    now rewrite getCount_app, getCount_persisted.
  - now rewrite map_map.
  - cbn [lastUpdated]. now rewrite Z.sub_diag.
Qed.

Lemma stats_after_refresh_witness :
  exists s' results,
    refreshTrafficData_resume world_one_failure no_faults monday_8am (init []) =
      (s', Return results) /\
    map readingCount (stats_crossings (api_stats (Some "key") 1704114000000 s')) =
      [0; 1; 1; 1; 1; 1] /\
    stats_cacheAge (api_stats (Some "key") 1704114000000 s') = Some 0.
Proof.
  eexists _, _. split; [vm_compute; reflexivity|].
  destruct (stats_after_refresh (Some "key") world_one_failure no_faults monday_8am
              1704114000000 (init []) _ _ eq_refl) as (H1 & _ & H3).
  split; [exact H1 | exact H3].
Defined.

(** ** What [GET /api/crossings] shows of a refresh *)

Lemma find_entry (w : World) (k : string) (ids : list string) :
  List.find (fun t => String.eqb (crossingId t) k) (map (entry_of w) ids) =
  if existsb (String.eqb k) ids then Some (entry_of w k) else None.
Proof.
  induction ids as [|a ids IH]; simpl; [reflexivity|].
  rewrite entry_of_crossingId, (String.eqb_sym k a).
  destruct (String.eqb a k) eqn:E; simpl; [|exact IH].
  apply String.eqb_eq in E. now subst.
Qed.

Lemma Forall_imap_In {A B} (P : B -> Prop) (l : list A) :
  forall f : nat -> A -> B, (forall i x, In x l -> P (f i x)) -> List.Forall P (imap f l).
Proof.
  induction l as [|a l IH]; intros f Hf; simpl; constructor.
  - apply Hf. now left.
  - apply IH. intros i x Hx. apply Hf. now right.
Qed.

Lemma real_view_crossing trafficData cache clock i (c : Crossing) :
  crossing (real_view trafficData cache clock i c) = c.
Proof.
  unfold real_view.
  destruct (match List.find _ trafficData with Some t => waitTime t | None => None end);
    [now destruct (getStatus _)|reflexivity].
Qed.

Lemma real_view_of_batch (w : World) (now : Date) clock i (c : Crossing) :
  In c CROSSINGS ->
  let v := real_view (map (entry_of w) (keys ROUTES))
                     (mkCache (Some (map (entry_of w) (keys ROUTES))) (Some now) None)
                     clock i c in
  updatedAt v = getTime now /\
  match fetchTravelTime w (App.id c) with
  | Return tr => exists m, waitTime tr = Some m /\ view_waitTime v = Minutes m /\
                           (App.status v, statusClass v) = getStatus m /\
                           view_error v = None
  | Throw msg => view_waitTime v = Dashes /\ App.status v = "Unknown" /\
                 statusClass v = "unknown" /\ view_error v = Some msg
  end.
Proof.
  intros Hc v. subst v. unfold real_view. rewrite find_entry.
  replace (existsb (String.eqb (App.id c)) (keys ROUTES)) with true
    by (simpl in Hc; repeat destruct Hc as [<-|Hc]; try reflexivity; contradiction).
  pose proof (entry_of_cases w (App.id c)) as He. cbn [lastUpdated].
  destruct (fetchTravelTime w (App.id c)) as [tr|msg].
  - destruct He as (-> & (m & Hm) & _). rewrite Hm.
    destruct (getStatus m) as [st cls] eqn:Eg. simpl. split; [reflexivity|].
    exists m. now rewrite Eg.
  - destruct He as (-> & ->). simpl. auto.
Qed.

(** X6.  With a key configured, a request for the crossings that arrives
    less than 600000 ms after a successful refresh is answered from it: six
    entries, one per crossing and in their order, all dated by that refresh;
    the entry of a crossing whose fetch succeeded shows its wait-time and the
    status that goes with it, and the entry of a crossing whose fetch failed
    is still there, with dashes, the status Unknown and the message of its
    failure. *)
Theorem crossings_answered_from_refresh (API_KEY : option string) (random : nat -> Q)
        (clock : nat -> Date) (t : Z) (r : nat) (b : bool) (w : World)
        (faults : nat -> option string) (now : Date) (s : State)
        (results : list TravelTime) :
  isConfigured API_KEY = true ->
  refreshes s !! r = Some (Pending b) ->
  (refreshTrafficData_resume w faults now s).2 = Return results ->
  t - getTime now < 600000 ->
  exists views,
    (api_crossings API_KEY random clock t (complete r w faults now s)).2 = Json views /\
    map crossing views = CROSSINGS /\
    List.Forall
      (fun v =>
         updatedAt v = getTime now /\
         match fetchTravelTime w (App.id (crossing v)) with
         | Return tr => exists m, waitTime tr = Some m /\ view_waitTime v = Minutes m /\
                                  (App.status v, statusClass v) = getStatus m /\
                                  view_error v = None
         | Throw msg => view_waitTime v = Dashes /\ App.status v = "Unknown" /\
                        statusClass v = "unknown" /\ view_error v = Some msg
         end) views.
Proof.
  intros Hk Hr Hres Ht.
  destruct (refreshTrafficData_resume w faults now s) as [s1 res] eqn:E.
  simpl in Hres. subst res.
  pose proof (complete_Return r b w faults now s s1 results Hr E) as Hs'.
  apply resume_Return in E as (-> & _).
  unfold api_crossings. rewrite Hk. cbn [negb].
  unfold getCurrentTraffic, fresh, cacheAge. rewrite Hs'.
  cbn [trafficCache data lastUpdated refreshPromise]. change CACHE_TTL with 600000.
  apply Z.ltb_lt in Ht. rewrite Ht. cbn [push_call calls trafficCache]. rewrite last_snoc.
  eexists. split; [reflexivity|]. split.
  - apply map_imap_id. intros i x. apply real_view_crossing.
  - apply Forall_imap_In. intros i c Hc. rewrite real_view_crossing.
    now apply real_view_of_batch.
Qed.

Lemma crossings_answered_from_refresh_witness :
  exists views,
    (api_crossings (Some "key") (fun _ => 0%Q) (fun _ => monday_8am) 1704114300000
       (complete 0 world_one_failure no_faults monday_8am (step (init []) Refresh))).2
    = Json views /\
    map view_waitTime views =
      [Dashes; Minutes 12; Minutes 12; Minutes 12; Minutes 12; Minutes 12] /\
    map view_error views = [Some "API error: OVER_QUERY_LIMIT"; None; None; None; None; None].
Proof.
  destruct (crossings_answered_from_refresh (Some "key") (fun _ => 0%Q) (fun _ => monday_8am)
              1704114300000 0 false world_one_failure no_faults monday_8am
              (step (init []) Refresh) (map (entry_of world_one_failure) (keys ROUTES)))
    as (views & Hv & _); [reflexivity | reflexivity | reflexivity | reflexivity |].
  eexists. split; [reflexivity|]. split; reflexivity.
Defined.

(** * Further invariants of the coordinator *)

Lemma await_ok_push (c : Call) (s : State) :
  await_ok s ->
  (forall p, c = Awaiting p -> refreshes s !! p = Some (Pending true)) ->
  await_ok (push_call c s).
Proof.
  intros Hs Hc i p; simpl. intros Hi.
  apply lookup_app_Some in Hi as [Hi|[_ Hi]]; [now apply (Hs i)|].
  apply list_lookup_singleton_Some in Hi as [_ ->]. now apply Hc.
Qed.

Lemma await_ok_get (now : Z) (s : State) :
  marker_ok s -> await_ok s -> await_ok (getCurrentTraffic now s).
Proof.
  intros Hm Hs. unfold getCurrentTraffic.
  destruct (if fresh (trafficCache s) now then data (trafficCache s) else None).
  - apply await_ok_push; [exact Hs|discriminate].
  - destruct (refreshPromise (trafficCache s)) as [p|] eqn:Hp.
    + apply await_ok_push; [exact Hs|]. intros q. unfold await.
      rewrite (Hm p Hp). intros [= <-]. exact (Hm p Hp).
    + intros i p; simpl. intros Hi.
      apply lookup_app_Some in Hi as [Hi|[_ Hi]].
      * apply lookup_app_l_Some. now apply (Hs i).
      * apply list_lookup_singleton_Some in Hi as [_ [= <-]].
        apply list_lookup_middle. reflexivity.
Qed.

Lemma await_ok_complete r w faults now (s : State) :
  await_ok s -> await_ok (complete r w faults now s).
Proof.
  intros Hs. unfold complete.
  destruct (refreshes s !! r) as [[b|]|] eqn:Hr; try exact Hs.
  destruct (refreshTrafficData_resume w faults now s) as [s1 res] eqn:E.
  assert (H1 : refreshes s1 = refreshes s /\ calls s1 = calls s).
  { destruct res; [apply resume_Return in E|apply resume_Throw in E]; tauto. }
  destruct H1 as [Hrs Hcs].
  assert (H2 : forall i p, map (resume_call r res) (calls s) !! i = Some (Awaiting p) ->
                           <[r := Settled res]> (refreshes s) !! p = Some (Pending true)).
  { intros i p Hi. rewrite list_lookup_fmap in Hi.
    destruct (calls s !! i) as [[q|x]|] eqn:Hc; simpl in Hi; try discriminate.
    destruct (Nat.eqb q r) eqn:Eq; [discriminate|]. injection Hi as <-.
    apply Nat.eqb_neq in Eq. rewrite list_lookup_insert_ne by congruence.
    now apply (Hs i). }
  intros i p. destruct b; simpl; rewrite Hrs, Hcs; apply H2.
Qed.

Lemma await_ok_step (s : State) (e : Event) :
  marker_ok s -> await_ok s -> await_ok (step s e).
Proof.
  intros Hm Hs. destruct e as [t| |r w faults now]; simpl.
  - now apply await_ok_get.
  - intros i p; simpl. intros Hi. apply lookup_app_l_Some. now apply (Hs i).
  - now apply await_ok_complete.
Qed.

(** X7.  In every state that the process can be in, a call of
    [getCurrentTraffic] that is suspended is suspended on a refresh that is
    still in flight and that was started by [getCurrentTraffic]: no caller is
    left waiting on a refresh that has already settled, so the completion of
    that refresh is what resumes it. *)
Theorem suspended_callers_wait_on_a_refresh_in_flight (s : State) (i p : nat) :
  reachable s ->
  calls s !! i = Some (Awaiting p) ->
  refreshes s !! p = Some (Pending true) /\
  forall w faults now,
    exists result, calls (complete p w faults now s) !! i = Some (Done result).
Proof.
  intros (tbl & es & ->) Hi.
  assert (H : marker_ok (run (init tbl) es) /\ await_ok (run (init tbl) es)).
  { clear Hi. induction es as [|e es [IHm IHa]] using rev_ind.
    - split; [intros q; discriminate|intros j q; discriminate].
    - rewrite run_snoc. split; [now apply marker_ok_step|now apply await_ok_step]. }
  destruct H as [_ Ha]. pose proof (Ha i p Hi) as Hp. split; [exact Hp|].
  intros w faults now. unfold complete. rewrite Hp.
  destruct (refreshTrafficData_resume w faults now (run (init tbl) es)) as [s1 res] eqn:E.
  assert (Hcs : calls s1 = calls (run (init tbl) es)).
  { destruct res; [apply resume_Return in E|apply resume_Throw in E]; tauto. }
  exists res. simpl. rewrite Hcs, list_lookup_fmap, Hi. simpl. now rewrite Nat.eqb_refl.
Qed.

Lemma suspended_callers_wait_on_a_refresh_in_flight_witness :
  let s := run (init []) [Refresh; Get 0; Get 1] in
  refreshes s !! 1%nat = Some (Pending true) /\
  forall w faults now,
    exists result, calls (complete 1 w faults now s) !! 1%nat = Some (Done result).
Proof.
  apply (suspended_callers_wait_on_a_refresh_in_flight
           (run (init []) [Refresh; Get 0; Get 1]) 1 1).
  - exists [], [Refresh; Get 0; Get 1]. reflexivity.
  - reflexivity.
Defined.

(** ** When every refresh comes from a read *)

Lemma pending_is_marker_get (now : Z) (s : State) :
  pending_is_marker s -> pending_is_marker (getCurrentTraffic now s).
Proof.
  intros Hs. unfold getCurrentTraffic.
  destruct (if fresh (trafficCache s) now then data (trafficCache s) else None); [exact Hs|].
  destruct (refreshPromise (trafficCache s)) as [q|] eqn:Hq; [exact Hs|].
  intros p b; simpl. intros Hp.
  apply lookup_app_Some in Hp as [Hp|[Hle Hp]].
  - apply Hs in Hp. congruence.
  - apply list_lookup_singleton_Some in Hp as [Hp _]. f_equal. lia.
Qed.

Lemma pending_is_marker_complete r w faults now (s : State) :
  marker_ok s -> pending_is_marker s -> pending_is_marker (complete r w faults now s).
Proof.
  intros Hm Hs. unfold complete.
  destruct (refreshes s !! r) as [[b|]|] eqn:Hr; try exact Hs.
  pose proof (Hs r b Hr) as Hmark. pose proof (Hm r Hmark) as Hb.
  assert (b = true) by congruence. subst b.
  destruct (refreshTrafficData_resume w faults now s) as [s1 res] eqn:E.
  assert (Hrs : refreshes s1 = refreshes s).
  { destruct res; [apply resume_Return in E|apply resume_Throw in E]; tauto. }
  intros p b; simpl. rewrite Hrs. intros Hp. exfalso.
  destruct (Nat.eq_dec p r) as [->|Hne].
  - rewrite list_lookup_insert_eq in Hp; [discriminate|].
    apply lookup_lt_is_Some. eauto.
  - rewrite list_lookup_insert_ne in Hp by congruence.
    apply Hs in Hp. congruence.
Qed.

Lemma at_most_one_Pending (l : list RefreshCall) :
  (forall p q b c, l !! p = Some (Pending b) -> l !! q = Some (Pending c) -> p = q) ->
  (length (List.filter (fun r => match r with Pending _ => true | Settled _ => false end) l)
   <= 1)%nat.
Proof.
  induction l as [|a l IH]; intros H; simpl; [lia|].
  assert (Hl : forall p q b c, l !! p = Some (Pending b) -> l !! q = Some (Pending c) -> p = q).
  { intros p q b c Hp Hq. specialize (H (S p) (S q) b c Hp Hq). lia. }
  destruct a as [b|x]; [|now apply IH]. simpl.
  destruct (List.filter _ l) as [|y ys] eqn:Ef; [simpl; lia|]. exfalso.
  assert (Hy : In y (List.filter (fun r => match r with Pending _ => true | Settled _ => false end) l))
    by (rewrite Ef; now left).
  apply filter_In in Hy as [Hin Hy]. destruct y as [c|]; [|discriminate].
  apply list_elem_of_In, list_elem_of_lookup_1 in Hin as (q & Hq).
  specialize (H 0%nat (S q) b c eq_refl Hq). discriminate.
Qed.

(** X8.  From a state that the process can be in, with no refresh in
    flight (the fetch made at startup and those of the scheduler have
    completed), and until the next direct call of [refreshTrafficData()], at
    most one refresh is in flight at any time, however many reads arrive, and
    it is the one that the marker names. *)
Theorem reads_alone_keep_one_refresh_in_flight (s0 : State) (es : list Event) :
  reachable s0 ->
  in_flight s0 = 0%nat ->
  List.Forall (fun e => is_Refresh e = false) es ->
  let s := run s0 es in
  (in_flight s <= 1)%nat /\
  forall p b, refreshes s !! p = Some (Pending b) ->
              refreshPromise (trafficCache s) = Some p /\ b = true.
Proof.
  intros Hreach Hidle Hes s.
  assert (H : marker_ok s /\ pending_is_marker s).
  { subst s. induction es as [|e es IH] using rev_ind.
    - split; [now apply reachable_marker_ok|].
      intros q b Hq. now apply in_flight_0_no_Pending in Hq.
    - apply Forall_app in Hes as [Hes He]. destruct (IH Hes) as [IHm IHp].
      rewrite run_snoc. split; [now apply marker_ok_step|].
      inversion He as [|? ? Hne _]; subst. destruct e as [t| |r w faults now]; simpl.
      + now apply pending_is_marker_get.
      + discriminate.
      + now apply pending_is_marker_complete. }
  destruct H as [Hm Hp]. split.
  - apply at_most_one_Pending. intros p q b c H1 H2.
    apply Hp in H1. apply Hp in H2. congruence.
  - intros p b Hb. pose proof (Hp p b Hb) as Hmark. split; [exact Hmark|].
    pose proof (Hm p Hmark). congruence.
Qed.

Lemma reads_alone_keep_one_refresh_in_flight_witness :
  let s0 := run (init []) [Refresh; Complete 0 world_all_fine disk_full monday_8am] in
  let s := run s0 [Get 1000; Get 1005; Complete 1 world_all_fine disk_full monday_8am;
                   Get 1009] in
  (in_flight s <= 1)%nat /\
  forall p b, refreshes s !! p = Some (Pending b) ->
              refreshPromise (trafficCache s) = Some p /\ b = true.
Proof.
  apply (reads_alone_keep_one_refresh_in_flight
           (run (init []) [Refresh; Complete 0 world_all_fine disk_full monday_8am])
           [Get 1000; Get 1005; Complete 1 world_all_fine disk_full monday_8am; Get 1009]).
  - exists [], [Refresh; Complete 0 world_all_fine disk_full monday_8am]. reflexivity.
  - reflexivity.
  - repeat constructor.
Defined.

(** * Properties of the protected routes *)

Lemma strict_eq_true (k : string) (v : Value) : strict_eq k v = true <-> v = Str k.
Proof.
  destruct v; simpl; try (split; [discriminate|intros [=]]).
  rewrite String.eqb_eq. split; [now intros ->|now intros [= ->]].
Qed.

(** X9.  A request passes [requireAdminKey] exactly when the admin key is
    not empty and either the header [x-api-key] is that key, or the header is
    missing or empty and the query parameter [apiKey] is that key: a header
    with a wrong key is not made good by a right key in the query.  A request
    that does not pass is answered 401 by both protected routes, which then
    store no reading and start no refresh. *)
Theorem admin_key_gate (ADMIN_API_KEY : string) (req : Credentials) :
  (requireAdminKey ADMIN_API_KEY req = true <->
   ADMIN_API_KEY <> "" /\
   (header_x_api_key req = Str ADMIN_API_KEY \/
    (falsy (header_x_api_key req) = true /\ query_apiKey req = Str ADMIN_API_KEY))) /\
  (requireAdminKey ADMIN_API_KEY req = false ->
   forall S2N fault now body s,
     post_api_readings S2N false ADMIN_API_KEY req fault now body s =
       (s, Return (Error 401 "Unauthorized: Invalid or missing API key")) /\
     post_api_refresh false ADMIN_API_KEY req s =
       (s, Error 401 "Unauthorized: Invalid or missing API key")).
Proof.
  split.
  - unfold requireAdminKey, or_else.
    destruct (falsy (header_x_api_key req)) eqn:Eh.
    + destruct (falsy (query_apiKey req)) eqn:Eq; simpl.
      * split; [discriminate|]. intros (Hne & [H|[_ H]]).
        -- rewrite H in Eh. simpl in Eh. apply String.eqb_eq in Eh. contradiction.
        -- rewrite H in Eq. simpl in Eq. apply String.eqb_eq in Eq. contradiction.
      * destruct (strict_eq ADMIN_API_KEY (query_apiKey req)) eqn:Es; simpl.
        -- apply strict_eq_true in Es. split; [intros _|reflexivity]. split; [|now right].
           intros ->. rewrite Es in Eq. discriminate.
        -- split; [discriminate|]. intros (Hne & [H|[_ H]]).
           ++ rewrite H in Eh. simpl in Eh. apply String.eqb_eq in Eh. contradiction.
           ++ apply strict_eq_true in H. congruence.
    + rewrite Eh. simpl.
      destruct (strict_eq ADMIN_API_KEY (header_x_api_key req)) eqn:Es; simpl.
      * apply strict_eq_true in Es. split; [intros _|reflexivity]. split; [|now left].
        intros ->. rewrite Es in Eh. discriminate.
      * split; [discriminate|]. intros (Hne & [H|[H _]]); [|congruence].
        apply strict_eq_true in H. congruence.
  - intros H S2N fault now body s. unfold post_api_readings, post_api_refresh.
    rewrite H. split; reflexivity.
Qed.

(** * Further properties of db.js *)

(** A box of the heatmap, from the readings of its bucket. *)
Lemma cell_of_bucket (readings : Db.Table) (crossingId : string) (d : Z) (i : nat) (h : Z) :
  Db.sampleCount (Db.cell (Db.getHeatmapData readings crossingId) d i h) =
    Db.COUNT (bucket_of readings crossingId d h) /\
  Db.avgTime (Db.cell (Db.getHeatmapData readings crossingId) d i h) =
    match bucket_of readings crossingId d h with
    | [] => None
    | b => Some (Db.ROUND_AVG b)
    end.
Proof.
  unfold Db.cell. cbn [Db.sampleCount Db.avgTime]. rewrite find_heatmap_row.
  fold (bucket_of readings crossingId d h).
  destruct (bucket_of readings crossingId d h); split; reflexivity.
Qed.




Lemma key_ltb_spec (a b : Z * Z) :
  Db.key_ltb a b = true <-> a.1 < b.1 \/ (a.1 = b.1 /\ a.2 < b.2).
Proof.
  unfold Db.key_ltb. rewrite orb_true_iff, andb_true_iff, !Z.ltb_lt, Z.eqb_eq. tauto.
Qed.

Lemma key_eqb_false (a b : Z * Z) :
  Db.key_eqb a b = false <-> a.1 <> b.1 \/ a.2 <> b.2.
Proof.
  unfold Db.key_eqb. rewrite andb_false_iff, !Z.eqb_neq. tauto.
Qed.

(** The keys of the groups come out in strictly increasing order. *)
Lemma insert_key_sorted (k : Z * Z) (ks : list (Z * Z)) :
  StronglySorted (fun a b => Db.key_ltb a b = true) ks ->
  StronglySorted (fun a b => Db.key_ltb a b = true) (Db.insert_key k ks).
Proof.
  induction 1 as [|a ks Hs IH Ha]; simpl; [repeat constructor|].
  destruct (Db.key_eqb k a) eqn:E; [now constructor|].
  destruct (Db.key_ltb k a) eqn:L.
  - constructor; [now constructor|]. constructor; [exact L|].
    rewrite List.Forall_forall in Ha |- *. intros x Hx. specialize (Ha x Hx).
    apply key_ltb_spec in L, Ha. apply key_ltb_spec. lia.
  - constructor; [exact IH|].
    rewrite List.Forall_forall in Ha |- *. intros x Hx.
    apply insert_key_In in Hx as [->|Hx]; [|now apply Ha].
    apply key_eqb_false in E. apply key_ltb_spec.
    assert (Hn : ~ (k.1 < a.1 \/ (k.1 = a.1 /\ k.2 < a.2)))
      by (rewrite <- key_ltb_spec; congruence).
    lia.
Qed.

Lemma group_keys_sorted (rows : Db.Table) :
  StronglySorted (fun a b => Db.key_ltb a b = true) (Db.group_keys rows).
Proof.
  induction rows as [|r rows IH]; simpl; [constructor|]. now apply insert_key_sorted.
Qed.

Lemma sorted_keys_NoDup (ks : list (Z * Z)) :
  StronglySorted (fun a b => Db.key_ltb a b = true) ks -> List.NoDup ks.
Proof.
  induction 1 as [|a ks Hs IH Ha]; constructor; [|exact IH].
  intros Hin. rewrite List.Forall_forall in Ha. specialize (Ha a Hin).
  apply key_ltb_spec in Ha. lia.
Qed.

Lemma group_keys_NoDup (rows : Db.Table) : List.NoDup (Db.group_keys rows).
Proof. apply sorted_keys_NoDup, group_keys_sorted. Qed.

Lemma sum_Z_map_add {A} (f g : A -> Z) (l : list A) :
  sum_Z (map (fun x => f x + g x) l) = sum_Z (map f l) + sum_Z (map g l).
Proof. induction l as [|a l IH]; simpl; [reflexivity|]. rewrite IH. lia. Qed.

Lemma sum_Z_indicator (k0 : Z * Z) (ks : list (Z * Z)) :
  List.NoDup ks ->
  sum_Z (map (fun k => if Db.key_eqb k0 k then 1 else 0) ks) =
  if existsb (Db.key_eqb k0) ks then 1 else 0.
Proof.
  induction 1 as [|a ks Ha Hnd IH]; simpl; [reflexivity|]. rewrite IH.
  destruct (Db.key_eqb k0 a) eqn:E; simpl; [|reflexivity].
  apply key_eqb_eq in E as ->.
  destruct (existsb (Db.key_eqb a) ks) eqn:Ex; [|reflexivity].
  apply existsb_exists in Ex as (x & Hx & Hk). apply key_eqb_eq in Hk as <-. contradiction.
Qed.

Lemma sum_Z_groups (ks : list (Z * Z)) (l : Db.Table) :
  List.NoDup ks ->
  (forall r, In r l -> In (Db.group_key r) ks) ->
  sum_Z (map (fun k => Db.COUNT (List.filter (Db.in_group k) l)) ks) = Db.COUNT l.
Proof.
  intros Hnd. induction l as [|r l IH]; intros Hin.
  - simpl. induction ks as [|k ks IHk]; simpl; [reflexivity|].
    inversion Hnd; subst. now rewrite IHk.
  - assert (E : forall k, Db.COUNT (List.filter (Db.in_group k) (r :: l)) =
                          (if Db.key_eqb (Db.group_key r) k then 1 else 0)
                          + Db.COUNT (List.filter (Db.in_group k) l)).
    { intros k. simpl. unfold Db.in_group at 1.
      destruct (Db.key_eqb (Db.group_key r) k); unfold Db.COUNT; simpl length; lia. }
    rewrite (map_ext _ _ E), sum_Z_map_add, IH by (intros x Hx; apply Hin; now right).
    rewrite sum_Z_indicator by assumption.
    replace (existsb (Db.key_eqb (Db.group_key r)) ks) with true.
    + unfold Db.COUNT. simpl length. lia.
    + symmetry. apply existsb_exists. exists (Db.group_key r).
      split; [apply Hin; now left|now apply key_eqb_eq].
Qed.

(** X11.  The rows of [getHeatmapData] count every reading of the crossing
    exactly once, whatever its timestamp: their sample counts add up to what
    [getCount] gives for the crossing. *)
Theorem heatmap_rows_count_every_reading (readings : Db.Table) (crossingId : string) :
  sum_Z (map Db.sample_count (Db.getHeatmapData readings crossingId)) =
  Db.getCount readings crossingId.
Proof.
  unfold Db.getHeatmapData, Db.getCount. rewrite map_map. cbn [Db.sample_count].
  apply sum_Z_groups; [apply group_keys_NoDup|].
  intros r Hr. apply group_keys_In. eauto.
Qed.

(** * Properties of the page script *)

(** What holds of the limiter and of the count of fetches while all the
    clicks fall within thirty seconds from [T]. *)
Lemma clicks_within_30s (T : Z) (cs : list Client.Click) :
  0 <= T ->
  List.Forall (fun c => T <= Client.at_canRefresh c < T + 30000 /\
                        Client.at_canRefresh c <= Client.at_push c /\
                        Client.at_canRefresh c <= Client.at_cooldown c) cs ->
  forall (l : Client.Limiter) (n : nat),
    ((Client.cooldownUntil l = None /\ (n < 3)%nat /\
      length (Client.refreshTimestamps l) = n /\
      List.Forall (fun t => T <= t) (Client.refreshTimestamps l)) \/
     (exists c, Client.cooldownUntil l = Some c /\ T + 30000 <= c /\ n = 3%nat)) ->
    (Client.clicks cs (l, n)).2 = Nat.min 3 (n + length cs).
Proof.
  intros HT. induction 1 as [|c cs (Hc1 & Hc2 & Hc3) Hcs IH]; intros l n Hinv.
  - unfold Client.clicks. cbn [fold_left snd length].
    destruct Hinv as [(_ & Hn & _)|(_ & _ & _ & ->)]; lia.
  - unfold Client.clicks in *. simpl fold_left.
    destruct Hinv as [(Hcd & Hn & Hlen & Hts)|(cd & Hcd & Hge & ->)].
    + assert (Hkept : List.filter (fun t => Client.at_canRefresh c - t <? Client.REFRESH_WINDOW)
                                  (Client.refreshTimestamps l) = Client.refreshTimestamps l).
      { clear Hlen. induction Hts as [|t ts Ht Hts IHt]; [reflexivity|]. simpl.
        replace (Client.at_canRefresh c - t <? Client.REFRESH_WINDOW) with true
          by (symmetry; apply Z.ltb_lt; unfold Client.REFRESH_WINDOW; lia).
        now rewrite IHt. }
      unfold Client.manualRefresh, Client.canRefresh. cbn [fst snd]. rewrite Hcd.
      cbn [Client.truthy andb Client.refreshTimestamps Client.cooldownUntil].
      rewrite Hkept, Hlen.
      replace (n <? Client.REFRESH_LIMIT)%nat with true
        by (symmetry; apply Nat.ltb_lt; exact Hn).
      cbn [negb]. unfold Client.recordRefresh.
      cbn [Client.refreshTimestamps Client.cooldownUntil].
      rewrite length_app, Hlen. cbn [length].
      destruct (Client.REFRESH_LIMIT <=? n + 1)%nat eqn:El.
      * apply Nat.leb_le in El. unfold Client.REFRESH_LIMIT in El.
        rewrite IH; [simpl length; lia|]. right. eexists. split; [reflexivity|].
        unfold Client.COOLDOWN_TIME. split; lia.
      * apply Nat.leb_gt in El. unfold Client.REFRESH_LIMIT in El.
        rewrite IH; [simpl length; lia|]. left. cbn [Client.cooldownUntil Client.refreshTimestamps].
        split; [exact Hcd|]. split; [lia|]. split; [rewrite length_app, Hlen; simpl; lia|].
        apply Forall_app. split; [exact Hts|]. repeat constructor. lia.
    + unfold Client.manualRefresh, Client.canRefresh. cbn [fst snd]. rewrite Hcd.
      cbn [Client.truthy Client.before].
      replace (cd =? 0) with false by (symmetry; apply Z.eqb_neq; lia).
      replace (Client.at_canRefresh c <? cd) with true by (symmetry; apply Z.ltb_lt; lia).
      cbn [negb andb]. rewrite IH; [simpl length; lia|]. right. eauto.
Qed.

(** X12.  From the loading of the page, however many times the refresh
    button is clicked within a span of thirty seconds, the first three clicks
    each start a fetch and the others start none. *)
Theorem at_most_three_manual_refreshes (T : Z) (cs : list Client.Click) :
  0 <= T ->
  List.Forall (fun c => T <= Client.at_canRefresh c < T + 30000 /\
                        Client.at_canRefresh c <= Client.at_push c /\
                        Client.at_canRefresh c <= Client.at_cooldown c) cs ->
  (Client.clicks cs (Client.start, 0%nat)).2 = Nat.min 3 (length cs).
Proof.
  intros HT Hcs. rewrite (clicks_within_30s T cs HT Hcs); [reflexivity|].
  left. repeat split; [lia|constructor].
Qed.

Lemma at_most_three_manual_refreshes_witness :
  (Client.clicks [Client.mkClick 1000 1000 1001; Client.mkClick 2000 2000 2000;
                  Client.mkClick 3000 3001 3001; Client.mkClick 4000 4000 4000;
                  Client.mkClick 30999 30999 30999]
                 (Client.start, 0%nat)).2 = 3%nat.
Proof.
  apply (at_most_three_manual_refreshes 1000
           [Client.mkClick 1000 1000 1001; Client.mkClick 2000 2000 2000;
            Client.mkClick 3000 3001 3001; Client.mkClick 4000 4000 4000;
            Client.mkClick 30999 30999 30999]).
  - lia.
  - repeat constructor; simpl; lia.
Defined.

(** X13.  On a card, at most one direction is marked as the faster one; a
    direction whose wait-time is unknown (dashes) is never marked; when both
    are known, the strictly smaller one is marked and none on a tie; when
    only one is known, that one is marked. *)
Theorem faster_marks (into out : CrossingView) :
  let '(intoFaster, outFaster) := Client.faster into out in
  intoFaster && outFaster = false /\
  match view_waitTime into, view_waitTime out with
  | Minutes a, Minutes b => intoFaster = (a <? b) /\ outFaster = (b <? a)
  | Minutes _, Dashes => intoFaster = true /\ outFaster = false
  | Dashes, Minutes _ => intoFaster = false /\ outFaster = true
  | Dashes, Dashes => intoFaster = false /\ outFaster = false
  end.
Proof.
  unfold Client.faster.
  destruct (view_waitTime into) as [a|], (view_waitTime out) as [b|]; simpl;
    rewrite ?andb_true_r; try (repeat split; reflexivity).
  repeat split. destruct (a <? b) eqn:E1, (b <? a) eqn:E2; try reflexivity.
  apply Z.ltb_lt in E1, E2. lia.
Qed.

(** ** The heatmap shown from the server's history *)

Lemma find_cell_server (readings : Db.Table) (crossingId : string) (d hr : nat) :
  (d < 7)%nat -> (hr < 24)%nat ->
  Client.find_cell (Db.getHistoricalData readings crossingId) d (Z.of_nat hr) =
  Some (Db.cell (Db.getHeatmapData readings crossingId)
                (Z.of_nat ((d + 1) mod 7)) d (Z.of_nat hr)).
Proof.
  intros Hd Hh. unfold Client.find_cell, Db.getHistoricalData; cbn [Db.heatmap].
  generalize (Db.getHeatmapData readings crossingId) as rows. intros rows.
  do 7 (destruct d as [|d];
        [do 24 (destruct hr as [|hr]; [reflexivity|]); exfalso; lia|]).
  exfalso; lia.
Qed.

Lemma heatmap_cells (readings : Db.Table) (crossingId : string) (c : Db.HeatmapCell) :
  In c (Db.heatmap (Db.getHistoricalData readings crossingId)) <->
  exists d hr, (d < 7)%nat /\ (hr < 24)%nat /\
               c = Db.cell (Db.getHeatmapData readings crossingId)
                           (Z.of_nat ((d + 1) mod 7)) d (Z.of_nat hr).
Proof.
  split.
  - intros Hin. apply list_elem_of_In, list_elem_of_lookup_1 in Hin as (i & Hi).
    assert (Hlt : (i < 168)%nat).
    { apply lookup_lt_Some in Hi. exact Hi. }
    exists (i / 24)%nat, (i mod 24)%nat.
    assert (Hd : (i / 24 < 7)%nat) by (apply Nat.Div0.div_lt_upper_bound; lia).
    assert (Hh : (i mod 24 < 24)%nat) by (apply Nat.mod_upper_bound; lia).
    split; [exact Hd|]. split; [exact Hh|].
    pose proof (heatmap_lookup readings crossingId _ _ Hd Hh) as Hl.
    rewrite <- (Nat.div_mod_eq i 24) in Hl. congruence.
  - intros (d & hr & Hd & Hh & ->).
    apply list_elem_of_In, (list_elem_of_lookup_2 _ (24 * d + hr)).
    now apply heatmap_lookup.
Qed.

(** X14.  Shown from the history that the server computes, the grid finds
    for every day and every hour, on the full grid as on the grid of peak
    hours, the server's own box for that day and hour, so that the label made
    up for a missing box is never used: the box shows "No data" when that
    day and hour have no reading, and otherwise the rounded mean, with its
    colour.  And the page says that there is no historical data exactly when
    the crossing has no reading in any of the 168 boxes. *)
Theorem heatmap_grid_shows_server_boxes (readings : Db.Table) (crossingId : string) :
  let data := Db.getHistoricalData readings crossingId in
  (forall (isMobile : bool) (day : string) (d : nat) (hour : Z),
      (d < 7)%nat -> In hour (Client.shown_hours isMobile data) ->
      exists c, Client.find_cell data d hour = Some c /\
                Db.dayIndex c = d /\ Db.cell_hour c = hour /\
                Db.sampleCount c =
                  Db.COUNT (bucket_of readings crossingId (Z.of_nat ((d + 1) mod 7)) hour) /\
                Client.box data day d hour =
                  match bucket_of readings crossingId (Z.of_nat ((d + 1) mod 7)) hour with
                  | [] => Client.NoData (day +:+ " " +:+ Db.label c +:+ ": No data")
                  | b => Client.Filled
                           (Client.getHeatmapColor (Db.ROUND_AVG b))
                           (day +:+ " " +:+ Db.label c +:+ ": "
                            +:+ Db.show (Db.ROUND_AVG b) +:+ " min")
                           (Db.ROUND_AVG b)
                  end) /\
  (Client.hasData data = false <->
   forall d hr, (d < 7)%nat -> (hr < 24)%nat ->
                bucket_of readings crossingId (Z.of_nat ((d + 1) mod 7)) (Z.of_nat hr) = []).
Proof.
  intros data. split.
  - intros isMobile day d hour Hd Hin.
    assert (Hh : exists hr, (hr < 24)%nat /\ hour = Z.of_nat hr).
    { destruct isMobile; simpl in Hin.
      - repeat destruct Hin as [<-|Hin]; try contradiction;
          [exists 6%nat|exists 7%nat|exists 8%nat|exists 9%nat|exists 10%nat|exists 16%nat
          |exists 17%nat|exists 18%nat|exists 19%nat|exists 20%nat]; split; (lia || reflexivity).
      - exists (Z.to_nat hour).
        repeat destruct Hin as [<-|Hin]; try contradiction; split; (lia || reflexivity). }
    destruct Hh as (hr & Hh & ->). eexists. split; [now apply find_cell_server|].
    split; [reflexivity|]. split; [reflexivity|]. split; [apply cell_of_bucket|].
    unfold Client.box, data. rewrite find_cell_server by assumption.
    rewrite (proj2 (cell_of_bucket _ _ _ _ _)).
    now destruct (bucket_of readings crossingId (Z.of_nat ((d + 1) mod 7)) (Z.of_nat hr)).
  - unfold Client.hasData. split.
    + intros Hn d hr Hd Hh.
      pose proof (proj2 (cell_of_bucket readings crossingId (Z.of_nat ((d + 1) mod 7)) d
                                        (Z.of_nat hr))) as Ha.
      destruct (bucket_of _ _ _ _) as [|b bs]; [reflexivity|]. exfalso.
      assert (He : existsb (fun cell => match Db.avgTime cell with Some _ => true | None => false end)
                           (Db.heatmap data) = true).
      { apply existsb_exists. eexists. split.
        - apply heatmap_cells. exists d, hr. eauto.
        - now rewrite Ha. }
      congruence.
    + intros Hall. destruct (existsb _ (Db.heatmap data)) eqn:He; [|reflexivity]. exfalso.
      apply existsb_exists in He as (c & Hin & Hc).
      apply heatmap_cells in Hin as (d & hr & Hd & Hh & ->).
      rewrite (proj2 (cell_of_bucket _ _ _ _ _)), (Hall d hr Hd Hh) in Hc. discriminate.
Qed.

(** ** The colours of the heatmap *)

Lemma clamp_low (x : Q) : (x <= 0)%Q -> Qmax 0 (Qmin 1 x) = 0%Q.
Proof.
  intros Hx. unfold Qmax, Qmin, GenericMinMax.gmax, GenericMinMax.gmin.
  assert (H1 : (1 ?= x)%Q = Gt) by (apply Qgt_alt; eapply Qle_lt_trans; [exact Hx|reflexivity]).
  rewrite H1. destruct (0 ?= x)%Q eqn:E; try reflexivity.
  apply Qlt_alt in E. exfalso. apply (Qlt_not_le _ _ E Hx).
Qed.

Lemma clamp_high (x : Q) : (1 <= x)%Q -> Qmax 0 (Qmin 1 x) = 1%Q.
Proof.
  intros Hx. unfold Qmax, Qmin, GenericMinMax.gmax, GenericMinMax.gmin.
  destruct (1 ?= x)%Q eqn:E; try reflexivity.
  apply Qgt_alt in E. exfalso. apply (Qlt_not_le _ _ E Hx).
Qed.

Lemma colour_low (value : Z) : value <= 8 -> Client.getHeatmapColor value = (34, 197, 94).
Proof.
  intros Hv. unfold Client.getHeatmapColor. cbv zeta.
  rewrite clamp_low; [reflexivity|]. unfold Qle; simpl. lia.
Qed.

Lemma colour_high (value : Z) : 45 <= value -> Client.getHeatmapColor value = (239, 68, 68).
Proof.
  intros Hv. unfold Client.getHeatmapColor. cbv zeta.
  rewrite clamp_high; [reflexivity|]. unfold Qle; simpl. lia.
Qed.

(** X15.  For every whole number of minutes, [getHeatmapColor] gives three
    components that are valid in [rgb(...)], each between 0 and 255; the
    colour is the green (34, 197, 94) up to 8 minutes and the red
    (239, 68, 68) from 45 minutes on. *)
Theorem heatmap_colour_range (value : Z) :
  let '(r, g, b) := Client.getHeatmapColor value in
  (0 <= r <= 255 /\ 0 <= g <= 255 /\ 0 <= b <= 255) /\
  (value <= 8 -> (r, g, b) = (34, 197, 94)) /\
  (45 <= value -> (r, g, b) = (239, 68, 68)).
Proof.
  destruct (Z_le_gt_dec value 8) as [Hlo|Hlo].
  - rewrite (colour_low value Hlo). repeat split; lia.
  - destruct (Z_le_gt_dec 45 value) as [Hhi|Hhi].
    + rewrite (colour_high value Hhi). repeat split; lia.
    + assert (H : exists n : nat, value = 9 + Z.of_nat n /\ (n < 36)%nat)
        by (exists (Z.to_nat (value - 9)); lia).
      destruct H as (n & -> & Hn).
      do 36 (destruct n as [|n];
             [vm_compute; repeat split; try discriminate; intros H; exfalso; now apply H|]).
      exfalso; lia.
Qed.

(** X16.  What the page shows for the time of the last update depends on
    the milliseconds elapsed as follows: "Just now" below 10 s (also when the
    clock went backwards); a number of seconds from 10 to 59 below one
    minute; "1 min ago" below two minutes; a number of minutes from 2 to 59
    below one hour; and the time of day from one hour on. *)
Theorem relative_time_ranges (now : Z) (date : Date) :
  let diffMs := now - getTime date in
  match Client.getRelativeTime now date with
  | Client.JustNow => diffMs < 10000
  | Client.SecAgo n => 10000 <= diffMs < 60000 /\ 10 <= n <= 59 /\ 1000 * n <= diffMs < 1000 * n + 1000
  | Client.OneMinAgo => 60000 <= diffMs < 120000
  | Client.MinAgo n => 120000 <= diffMs < 3600000 /\ 2 <= n <= 59
                       /\ 60000 * n <= diffMs < 60000 * n + 60000
  | Client.TimeOfDay d => 3600000 <= diffMs /\ d = date
  end.
Proof.
  intros diffMs. unfold Client.getRelativeTime. fold diffMs.
  pose proof (Z.div_mod diffMs 1000 ltac:(lia)) as H1.
  pose proof (Z.mod_pos_bound diffMs 1000 ltac:(lia)) as B1.
  pose proof (Z.div_mod (diffMs / 1000) 60 ltac:(lia)) as H2.
  pose proof (Z.mod_pos_bound (diffMs / 1000) 60 ltac:(lia)) as B2.
  destruct (diffMs / 1000 <? 10) eqn:E1; [apply Z.ltb_lt in E1; lia|].
  apply Z.ltb_ge in E1.
  destruct (diffMs / 1000 <? 60) eqn:E2; [apply Z.ltb_lt in E2; lia|].
  apply Z.ltb_ge in E2.
  destruct (diffMs / 1000 / 60 =? 1) eqn:E3; [apply Z.eqb_eq in E3; lia|].
  apply Z.eqb_neq in E3.
  destruct (diffMs / 1000 / 60 <? 60) eqn:E4; [apply Z.ltb_lt in E4; lia|].
  apply Z.ltb_ge in E4. split; [lia|reflexivity].
Qed.

(** X17.  Whatever is posted to [/api/readings], the cache, the refreshes
    and the suspended calls are left alone, and the store is either left as
    it was or gets exactly one more reading, at the end: a reading of one of
    the six crossings, with a wait-time from 0 to 300, stamped with the time
    of the request; and this only for a request that the rate limiter and the
    key check let through. *)
Theorem manual_reading_integrity (S2N : string -> Num) (limited : bool)
        (ADMIN_API_KEY : string) (req : Credentials) (fault : option string) (now : Date)
        (body : Body) (s : State) :
  let s' := (post_api_readings S2N limited ADMIN_API_KEY req fault now body s).1 in
  trafficCache s' = trafficCache s /\
  batches s' = batches s /\
  refreshes s' = refreshes s /\
  calls s' = calls s /\
  (readings s' = readings s \/
   exists c n, In c CROSSINGS /\ 0 <= n <= 300 /\
               readings s' = readings s ++ [reading_of (App.id c) n now] /\
               limited = false /\ requireAdminKey ADMIN_API_KEY req = true).
Proof.
  unfold post_api_readings.
  destruct limited; [repeat split; now left|].
  destruct (requireAdminKey ADMIN_API_KEY req) eqn:Ek; cbn [negb]; [|repeat split; now left].
  unfold api_readings.
  destruct (falsy (body_crossingId body) || negb (is_string (body_crossingId body)));
    [repeat split; now left|].
  pose proof (find_crossing (body_crossingId body)) as Hf.
  destruct (List.find _ CROSSINGS) as [c|]; [|repeat split; now left].
  destruct Hf as [Hc _].
  destruct (body_waitTime body) as [| |b|n|str|o]; try (repeat split; now left);
    (destruct (integer_value (ToNumber S2N _)) as [k|]; [|repeat split; now left];
     destruct ((k <? 0) || (k >? 300)) eqn:Er; [repeat split; now left|];
     apply range_test in Er; unfold Db.addReading;
     destruct fault; simpl; [repeat split; now left|];
     repeat split; right; exists c, k; auto).
Qed.
